(** * qx / tx: the conversation store of [src/qx.ts] and the task engine

    A shallow embedding of the persistence layer of [src/src/qx.ts]
    (active conversation, history directory, prefix resolution of history
    records) and of the focus scorer and recurrence engine of [tx].

    Conventions of the embedding.
    - A JavaScript string is a [string]; [length], [slice], [startsWith],
      [endsWith] and [replace] count characters of that string.
    - The part of the file system the program touches is the directory
      [~/.cx]: the file [active_message.json] and the directory [history]
      with its regular files.  Identifiers are file-name safe (the program
      draws them with [randomUUID]), so [join(HISTORY_DIR, id + ".json")]
      names an entry of [history].
    - Every [fs] call that changes the disk is recorded, in order, in the
      [trace] of the world.  A call fails only for a missing file or
      directory; permissions and full disks are not modelled.
    - A function of the source that can throw returns a [Completion]; the
      disk keeps what was written before the exception.
    - [JSON.parse(content) as MessageHistory] is taken at the word of its
      cast: a text either yields a [MessageHistory] or throws.  The codec
      ([JSON.parse], [JSON.stringify]) and [Date] parsing belong to the
      runtime and are parameters of the store; [Module Json] and
      [Module IsoDate] give instances of them.
    - Of the rest of [src/src/qx.ts], [createModel], the bash tool and
      [chat] are embedded.  The model ([modelWithTools.invoke]), the shell
      ([execSync]), the identifier [randomUUID] draws and the text of
      [getSystemPrompt] are parameters; what is printed on the console is
      left out, except that [chat] returns which of its two final messages
      it prints. *)

From Stdlib Require Import String Ascii List ZArith Lia Bool Arith.
From Stdlib Require Import DecimalString.
From Stdlib Require Import Permutation Sorted.
Import ListNotations.
Local Open Scope string_scope.
Local Open Scope list_scope.

(** ** JavaScript string operations used by the source *)

Module Js.

(** [s.startsWith(p)] *)
Definition startsWith (s p : string) : bool := String.prefix p s.

(** the characters of [s] from position [n] on: [s.slice(n)] *)
Fixpoint drop (n : nat) (s : string) : string :=
  match n, s with
  | O, _ => s
  | S n', EmptyString => EmptyString
  | S n', String _ s' => drop n' s'
  end.

(** [s.endsWith(suf)] *)
Definition endsWith (s suf : string) : bool :=
  Nat.leb (String.length suf) (String.length s)
  && String.eqb (drop (String.length s - String.length suf) s) suf.

(** [s.replace(pat, rep)] with a string pattern: only the first occurrence
    of [pat] is replaced. *)
Fixpoint replace (pat rep s : string) : string :=
  if String.prefix pat s then rep ++ drop (String.length pat) s
  else match s with
       | EmptyString => EmptyString
       | String c s' => String c (replace pat rep s')
       end.

(** [s.slice(0, n)] *)
Definition slice0 (n : nat) (s : string) : string := String.substring 0 n s.


(** The white space and line terminators of ECMAScript among the 256
    characters: TAB, LF, VT, FF, CR, SP and NBSP. *)
Definition is_space (c : ascii) : bool :=
  let n := nat_of_ascii c in
  (Nat.leb 9 n && Nat.leb n 13) || Nat.eqb n 32 || Nat.eqb n 160.

(** [s.trimStart()] *)
Fixpoint trimStart (s : string) : string :=
  match s with
  | EmptyString => EmptyString
  | String c s' => if is_space c then trimStart s' else s
  end.

(** [s.trimEnd()] *)
Fixpoint trimEnd (s : string) : string :=
  match s with
  | EmptyString => EmptyString
  | String c s' =>
      match trimEnd s' with
      | EmptyString => if is_space c then EmptyString else String c EmptyString
      | rest => String c rest
      end
  end.

(** [s.trim()] *)
Definition trim (s : string) : string := trimEnd (trimStart s).

End Js.

(** ** Stored data ([src/qx.ts], lines 52-72) *)

Inductive Role := system | human | assistant.

Definition Role_eqb (a b : Role) : bool :=
  match a, b with
  | system, system | human, human | assistant, assistant => true
  | _, _ => false
  end.

Record StoredMessage := mkStoredMessage {
  role : Role;
  content : string;
  timestamp : string
}.

Module MessageHistory.
Record t := mk {
  id : string;
  created : string;
  updated : string;
  messages : list StoredMessage
}.
(** [history.updated = v] *)
Definition set_updated (h : t) (v : string) : t :=
  mk (id h) (created h) v (messages h).
End MessageHistory.

Module HistoryRecord.
Record t := mk {
  id : string;
  created : string;
  updated : string;
  preview : string;
  messageCount : nat
}.
End HistoryRecord.

(** ** The disk under [~/.cx] *)

Inductive Dir := CONFIG_DIR | HISTORY_DIR.

(** [HistoryFile name] is [join(HISTORY_DIR, name)]. *)
Inductive File := ACTIVE_MESSAGE_PATH | HistoryFile (name : string).

Inductive Path := PDir (d : Dir) | PFile (f : File).
Coercion PDir : Dir >-> Path.
Coercion PFile : File >-> Path.

(** A directory listing: file name and content, in [readdir] order. *)
Definition Listing := list (string * string).

Record CxDir := mkCxDir {
  active_message_json : option string;
  history : option Listing
}.

(** [None]: [~/.cx] does not exist. *)
Definition Disk := option CxDir.

Definition activeFile (d : Disk) : option string :=
  match d with Some c => active_message_json c | None => None end.

Definition historyFiles (d : Disk) : Listing :=
  match d with
  | Some c => match history c with Some l => l | None => [] end
  | None => []
  end.

Fixpoint lookup (name : string) (l : Listing) : option string :=
  match l with
  | [] => None
  | (n, c) :: l' => if String.eqb n name then Some c else lookup name l'
  end.

(** Writing a file of a directory: an existing entry keeps its place, a new
    one is added at the end. *)
Fixpoint store (name content : string) (l : Listing) : Listing :=
  match l with
  | [] => [(name, content)]
  | (n, c) :: l' =>
      if String.eqb n name then (n, content) :: l'
      else (n, c) :: store name content l'
  end.

(** The calls of [fs] that change the disk.  [rename] is the one a
    write-then-rename update would need; the source never imports it. *)
Inductive FsOp :=
| mkdir (d : Dir)
| write (f : File) (data : string)
| unlink (f : File)
| rename (src dst : File).

Record World := mkWorld {
  disk : Disk;
  clock : nat -> string;   (* what the n-th [new Date().toISOString()] gives *)
  tick : nat;
  trace : list FsOp
}.

(** ** Computations: state and exceptions *)

Inductive Exn := SyntaxError | ENOENT.

Inductive Completion (A : Type) :=
| Returned (a : A)
| Thrown (e : Exn).
Arguments Returned {A} a.
Arguments Thrown {A} e.

Definition M (A : Type) : Type := World -> Completion A * World.

Definition ret {A} (a : A) : M A := fun w => (Returned a, w).
Definition throw {A} (e : Exn) : M A := fun w => (Thrown e, w).

Definition bind {A B} (m : M A) (k : A -> M B) : M B :=
  fun w =>
    match m w with
    | (Returned a, w') => k a w'
    | (Thrown e, w') => (Thrown e, w')
    end.

(** [try { body } catch { handler }] *)
Definition try_catch {A} (body handler : M A) : M A :=
  fun w =>
    match body w with
    | (Returned a, w') => (Returned a, w')
    | (Thrown _, w') => handler w'
    end.

Declare Scope js_scope.
Delimit Scope js_scope with js.
Notation "x <- m ;; k" := (bind m (fun x => k))
  (at level 61, m at next level, right associativity) : js_scope.
Notation "m ;; k" := (bind m (fun _ => k))
  (at level 61, right associativity) : js_scope.
Local Open Scope js_scope.

(** [if (c) { m }] *)
Definition when (c : bool) (m : M unit) : M unit :=
  if c then m else ret tt.

(** ** The [fs] primitives *)

Definition existsSync (p : Path) : M bool :=
  fun w =>
    (Returned
       match p, disk w with
       | _, None => false
       | PDir CONFIG_DIR, Some _ => true
       | PDir HISTORY_DIR, Some c =>
           match history c with Some _ => true | None => false end
       | PFile ACTIVE_MESSAGE_PATH, Some c =>
           match active_message_json c with Some _ => true | None => false end
       | PFile (HistoryFile n), Some c =>
           match history c with
           | Some l => match lookup n l with Some _ => true | None => false end
           | None => false
           end
       end, w).

Definition log (op : FsOp) (d : Disk) (w : World) : World :=
  mkWorld d (clock w) (tick w) (trace w ++ [op]).

(** [mkdirSync(d, { recursive: true })] *)
Definition mkdirSync (d : Dir) : M unit :=
  fun w =>
    let c := match disk w with
             | Some c => c
             | None => mkCxDir None None
             end in
    let c' := match d with
              | CONFIG_DIR => c
              | HISTORY_DIR =>
                  mkCxDir (active_message_json c)
                          (Some match history c with Some l => l | None => [] end)
              end in
    (Returned tt, log (mkdir d) (Some c') w).

Definition readFileSync (f : File) : M string :=
  fun w =>
    match f with
    | ACTIVE_MESSAGE_PATH =>
        match activeFile (disk w) with
        | Some s => (Returned s, w)
        | None => (Thrown ENOENT, w)
        end
    | HistoryFile n =>
        match lookup n (historyFiles (disk w)) with
        | Some s => (Returned s, w)
        | None => (Thrown ENOENT, w)
        end
    end.

Definition writeFileSync (f : File) (data : string) : M unit :=
  fun w =>
    match disk w with
    | None => (Thrown ENOENT, w)
    | Some c =>
        match f with
        | ACTIVE_MESSAGE_PATH =>
            (Returned tt,
             log (write f data) (Some (mkCxDir (Some data) (history c))) w)
        | HistoryFile n =>
            match history c with
            | None => (Thrown ENOENT, w)
            | Some l =>
                (Returned tt,
                 log (write f data)
                     (Some (mkCxDir (active_message_json c)
                                    (Some (store n data l)))) w)
            end
        end
    end.

Definition readdirSync (d : Dir) : M (list string) :=
  fun w =>
    match d, disk w with
    | _, None => (Thrown ENOENT, w)
    | CONFIG_DIR, Some c =>
        (Returned
           ((match active_message_json c with
             | Some _ => ["active_message.json"] | None => [] end)
            ++ (match history c with Some _ => ["history"] | None => [] end)),
         w)
    | HISTORY_DIR, Some c =>
        match history c with
        | Some l => (Returned (map fst l), w)
        | None => (Thrown ENOENT, w)
        end
    end.

Fixpoint remove_entry (name : string) (l : Listing) : Listing :=
  match l with
  | [] => []
  | (n, c) :: l' =>
      if String.eqb n name then l' else (n, c) :: remove_entry name l'
  end.

Definition unlinkSync (f : File) : M unit :=
  fun w =>
    match disk w with
    | None => (Thrown ENOENT, w)
    | Some c =>
        match f with
        | ACTIVE_MESSAGE_PATH =>
            match active_message_json c with
            | Some _ =>
                (Returned tt, log (unlink f) (Some (mkCxDir None (history c))) w)
            | None => (Thrown ENOENT, w)
            end
        | HistoryFile n =>
            match history c with
            | Some l =>
                match lookup n l with
                | Some _ =>
                    (Returned tt,
                     log (unlink f)
                         (Some (mkCxDir (active_message_json c)
                                        (Some (remove_entry n l)))) w)
                | None => (Thrown ENOENT, w)
                end
            | None => (Thrown ENOENT, w)
            end
        end
    end.

(** [new Date().toISOString()] *)
Definition new_Date_toISOString : M string :=
  fun w =>
    (Returned (clock w (tick w)),
     mkWorld (disk w) (clock w) (S (tick w)) (trace w)).

(** [for (const x of xs) { acc = body(acc, x) }] *)
Fixpoint for_of {A S} (xs : list A) (body : S -> A -> M S) (acc : S) : M S :=
  match xs with
  | [] => ret acc
  | x :: xs' => acc' <- body acc x ;; for_of xs' body acc'
  end.

(** [Array.prototype.sort(compareFn)]: the sort is stable, [a] stays before
    [b] unless [compareFn(a, b) > 0].  A [NaN] from [compareFn] counts as 0
    and is given as 0 here. *)
Fixpoint sort_insert {A} (compareFn : A -> A -> Z) (x : A) (l : list A) : list A :=
  match l with
  | [] => [x]
  | y :: l' =>
      if (compareFn x y <=? 0)%Z then x :: y :: l'
      else y :: sort_insert compareFn x l'
  end.

Definition Array_sort {A} (compareFn : A -> A -> Z) (l : list A) : list A :=
  fold_right (sort_insert compareFn) [] l.

(** ** The conversation store ([src/qx.ts], lines 96-350) *)

Inductive RestoreResult :=
| success
| not_found
| ambiguous (matches : list string).

Section Store.

(** [JSON.parse(content) as MessageHistory]; [None] when it throws. *)
Variable JSON_parse : string -> option MessageHistory.t.
(** [JSON.stringify(history, null, 2)] *)
Variable JSON_stringify : MessageHistory.t -> string.
(** [new Date(s).getTime()]; [None] is [NaN]. *)
Variable Date_getTime : string -> option Z.

Definition JSON_parse_or_throw (content : string) : M MessageHistory.t :=
  match JSON_parse content with
  | Some h => ret h
  | None => throw SyntaxError
  end.

Definition ensureDirectories : M unit :=
  b <- existsSync CONFIG_DIR ;;
  when (negb b) (mkdirSync CONFIG_DIR) ;;
  b' <- existsSync HISTORY_DIR ;;
  when (negb b') (mkdirSync HISTORY_DIR).

Definition loadActiveMessage : M (option MessageHistory.t) :=
  ensureDirectories ;;
  b <- existsSync ACTIVE_MESSAGE_PATH ;;
  if negb b then ret None
  else
    try_catch
      (content <- readFileSync ACTIVE_MESSAGE_PATH ;;
       h <- JSON_parse_or_throw content ;;
       ret (Some h))
      (ret None).

(** The source assigns [history.updated] in the caller's object and returns
    nothing; the record as the call leaves it is returned here. *)
Definition saveActiveMessage (history : MessageHistory.t) : M MessageHistory.t :=
  ensureDirectories ;;
  now <- new_Date_toISOString ;;
  let history := MessageHistory.set_updated history now in
  writeFileSync ACTIVE_MESSAGE_PATH (JSON_stringify history) ;;
  ret history.

Definition archiveToHistory (history : MessageHistory.t) : M unit :=
  ensureDirectories ;;
  let historyPath := HistoryFile (MessageHistory.id history ++ ".json") in
  writeFileSync historyPath (JSON_stringify history).

(** [if (current && current.messages.length > 0) archiveToHistory(current)] *)
Definition archive_current (current : option MessageHistory.t) : M unit :=
  match current with
  | Some c =>
      when (0 <? List.length (MessageHistory.messages c))%nat
           (archiveToHistory c)
  | None => ret tt
  end.

Definition clearActiveMessage : M bool :=
  current <- loadActiveMessage ;;
  archive_current current ;;
  b <- existsSync ACTIVE_MESSAGE_PATH ;;
  if b then unlinkSync ACTIVE_MESSAGE_PATH ;; ret true
  else ret false.

(** The preview of [listHistory]: the first human message, cut at 60. *)
Definition preview_of (history : MessageHistory.t) : string :=
  match find (fun m => Role_eqb (role m) human) (MessageHistory.messages history) with
  | Some firstHuman =>
      Js.slice0 60 (content firstHuman)
      ++ (if (60 <? String.length (content firstHuman))%nat then "..." else "")
  | None => "(empty conversation)"
  end.

Definition record_of (history : MessageHistory.t) : HistoryRecord.t :=
  HistoryRecord.mk (MessageHistory.id history)
                   (MessageHistory.created history)
                   (MessageHistory.updated history)
                   (preview_of history)
                   (List.length (MessageHistory.messages history)).

(** [(a, b) => new Date(b.updated).getTime() - new Date(a.updated).getTime()] *)
Definition by_updated_desc (a b : HistoryRecord.t) : Z :=
  match Date_getTime (HistoryRecord.updated b),
        Date_getTime (HistoryRecord.updated a) with
  | Some tb, Some ta => (tb - ta)%Z
  | _, _ => 0%Z
  end.

Definition listHistory : M (list HistoryRecord.t) :=
  ensureDirectories ;;
  b <- existsSync HISTORY_DIR ;;
  if negb b then ret []
  else
    names <- readdirSync HISTORY_DIR ;;
    let files := filter (fun f => Js.endsWith f ".json") names in
    records <-
      for_of files
        (fun records file =>
           try_catch
             (content <- readFileSync (HistoryFile file) ;;
              history <- JSON_parse_or_throw content ;;
              ret (records ++ [record_of history]))
             (ret records))
        [] ;;
    ret (Array_sort by_updated_desc records).

Definition restoreHistory (guid : string) : M RestoreResult :=
  ensureDirectories ;;
  names <- readdirSync HISTORY_DIR ;;
  let files :=
    filter (fun f => Js.endsWith f ".json" && Js.startsWith f guid) names in
  if (List.length files =? 0)%nat then ret not_found
  else if (1 <? List.length files)%nat then
    let matches := map (fun f => Js.replace ".json" "" f) files in
    ret (ambiguous matches)
  else
    let matchedPath := HistoryFile (nth 0 files "") in
    content <- readFileSync matchedPath ;;
    history <- JSON_parse_or_throw content ;;
    current <- loadActiveMessage ;;
    archive_current current ;;
    saveActiveMessage history ;;
    ret success.

End Store.

(** ** What the operations of the store leave behind *)

(** The disk once [ensureDirectories] has run. *)
Definition ensured (d : Disk) : Disk :=
  Some (mkCxDir (activeFile d) (Some (historyFiles d))).

(** The [mkdirSync] calls of [ensureDirectories] on disk [d]. *)
Definition mkdirs (d : Disk) : list FsOp :=
  match d with
  | None => [mkdir CONFIG_DIR; mkdir HISTORY_DIR]
  | Some c =>
      match history c with
      | None => [mkdir HISTORY_DIR]
      | Some _ => []
      end
  end.

Definition after_ensure (w : World) : World :=
  mkWorld (ensured (disk w)) (clock w) (tick w) (trace w ++ mkdirs (disk w)).

(** The file names [restoreHistory] keeps for a prefix. *)
Definition matching (guid : string) (l : Listing) : list string :=
  filter (fun f => Js.endsWith f ".json" && Js.startsWith f guid) (map fst l).

Definition nonempty (c : MessageHistory.t) : bool :=
  (0 <? List.length (MessageHistory.messages c))%nat.

Section Effects.

Variable JSON_parse : string -> option MessageHistory.t.
Variable JSON_stringify : MessageHistory.t -> string.

(** What [loadActiveMessage] reads. *)
Definition active_record (d : Disk) : option MessageHistory.t :=
  match activeFile d with
  | Some content => JSON_parse content
  | None => None
  end.

(** The write of [archive_current]. *)
Definition archive_ops (cur : option MessageHistory.t) : list FsOp :=
  match cur with
  | Some c =>
      if nonempty c
      then [write (HistoryFile (MessageHistory.id c ++ ".json"))
                  (JSON_stringify c)]
      else []
  | None => []
  end.

Definition archive_files (cur : option MessageHistory.t) (l : Listing) : Listing :=
  match cur with
  | Some c =>
      if nonempty c
      then store (MessageHistory.id c ++ ".json") (JSON_stringify c) l
      else l
  | None => l
  end.

(** The record of a history file, when its content parses. *)
Definition record_of_file (l : Listing) (file : string) : list HistoryRecord.t :=
  match lookup file l with
  | Some content =>
      match JSON_parse content with
      | Some h => [record_of h]
      | None => []
      end
  | None => []
  end.


(** The records [listHistory] collects, before it sorts them. *)
Definition records_of (l : Listing) : list HistoryRecord.t :=
  flat_map (record_of_file l)
           (filter (fun f => Js.endsWith f ".json") (map fst l)).

End Effects.

(** The [fs] calls made between two worlds. *)
Definition ops_since (w w' : World) : list FsOp :=
  skipn (List.length (trace w)) (trace w').

(** ** Model selection ([src/qx.ts], lines 27-50 and 126-164) *)

Module BedrockConfig.
Record t := mk { model : option string; region : option string }.
End BedrockConfig.

Module OpenAIConfig.
Record t := mk { baseUrl : string; apiKey : string; model : string }.
End OpenAIConfig.

Module LocalConfig.
Record t := mk { baseUrl : string; model : string; apiKey : option string }.
End LocalConfig.

(** [provider] is a string: the configuration is read with a cast, and
    [createModel] has a branch for a provider that is none of the three. *)
Module Config.
Record t := mk {
  provider : string;
  bedrock : option BedrockConfig.t;
  openai : option OpenAIConfig.t;
  local : option LocalConfig.t
}.
End Config.

(** The model that is constructed, with the options it is given; the
    constructors of the two classes are taken to return. *)
Inductive BaseChatModel :=
| ChatBedrockConverse (model region : string)
| ChatOpenAI (modelName openAIApiKey baseURL : string).

(** [a || b] on an optional string: [undefined] and the empty string are
    falsy. *)
Definition or_string (a : option string) (b : string) : string :=
  match a with
  | Some s => if String.eqb s "" then b else s
  | None => b
  end.

(** [inr message] is [throw new Error(message)]. *)
Definition createModel (config : Config.t) : BaseChatModel + string :=
  if String.eqb (Config.provider config) "bedrock" then
    let bedrockConfig :=
      match Config.bedrock config with
      | Some b => b
      | None => BedrockConfig.mk None None
      end in
    inl (ChatBedrockConverse
           (or_string (BedrockConfig.model bedrockConfig)
                      "anthropic.claude-3-5-sonnet-20241022-v2:0")
           (or_string (BedrockConfig.region bedrockConfig) "us-east-1"))
  else if String.eqb (Config.provider config) "openai" then
    match Config.openai config with
    | None => inr "OpenAI config not found"
    | Some openaiConfig =>
        inl (ChatOpenAI (OpenAIConfig.model openaiConfig)
                        (OpenAIConfig.apiKey openaiConfig)
                        (OpenAIConfig.baseUrl openaiConfig))
    end
  else if String.eqb (Config.provider config) "local" then
    match Config.local config with
    | None => inr "Local config not found"
    | Some localConfig =>
        inl (ChatOpenAI (LocalConfig.model localConfig)
                        (or_string (LocalConfig.apiKey localConfig) "not-needed")
                        (LocalConfig.baseUrl localConfig))
    end
  else inr ("Unknown provider: " ++ Config.provider config)%string.

(** ** The bash tool ([src/qx.ts], lines 167-206) *)

(** What [execSync] throws: an [Error] of a child process, with the exit
    status ([null] when a signal ended it), what the command wrote on its
    standard error and the message; or a value that is no [Error]. *)
Inductive ExecException :=
| ChildProcessError (status : option nat) (stderr : option string)
                    (message : string)
| NotAnError.

(** [execSync(command, options)]: the standard output of the command, or
    the exception; the command can change the world. *)
Definition ExecSync : Type :=
  string -> World -> (string + ExecException) * World.

(** [String(n)] for a natural number *)
Definition Number_toString (n : nat) : string :=
  NilZero.string_of_uint (Nat.to_uint n).

(** [status || 1]: [undefined], [null] and 0 are falsy. *)
Definition or_one (status : option nat) : nat :=
  match status with
  | Some (S n) => S n
  | _ => 1
  end.

(** 8000, the length from which the output is cut. *)
Definition output_limit : nat := 80 * 100.

(** A line feed and ["... (output truncated)"] *)
Definition truncated_mark : string :=
  String (ascii_of_nat 10) "... (output truncated)".

(** The [try] block of the tool, from the output of the command on. *)
Definition bash_output (output : string) : string :=
  let trimmed := Js.trim output in
  if (output_limit <? String.length trimmed)%nat
  then (Js.slice0 output_limit trimmed ++ truncated_mark)%string
  else if String.eqb trimmed "" then "(no output)" else trimmed.

(** The [catch] block of the tool. *)
Definition bash_error (error : ExecException) : string :=
  match error with
  | ChildProcessError status stderr message =>
      let stderr := or_string stderr message in
      ("Error (exit " ++ Number_toString (or_one status) ++ "): " ++ stderr)%string
  | NotAnError => "Unknown error occurred"
  end.

(** The function of the tool; what it prints on the console is left out. *)
Definition bashTool (execSync : ExecSync) (command : string) : M string :=
  fun w =>
    match execSync command w with
    | (inl output, w') => (Returned (bash_output output), w')
    | (inr error, w') => (Returned (bash_error error), w')
    end.

(** ** The chat loop ([src/qx.ts], lines 248-255 and 352-443) *)

(** [randomUUID()] draws [uuid]. *)
Definition createNewHistory (uuid : string) : M MessageHistory.t :=
  created <- new_Date_toISOString ;;
  updated <- new_Date_toISOString ;;
  ret (MessageHistory.mk uuid created updated []).

(** [history.messages.push(m)] *)
Definition push_message (history : MessageHistory.t) (m : StoredMessage)
  : MessageHistory.t :=
  MessageHistory.mk (MessageHistory.id history) (MessageHistory.created history)
                    (MessageHistory.updated history)
                    (MessageHistory.messages history ++ [m]).

(** [args] is the [command] of the cast [toolCall.args as { command: string }]. *)
Module ToolCall.
Record t := mk { name : string; args : string; id : option string }.
End ToolCall.

(** What [chat] prints before it returns: the final answer, or that the
    iterations are used up. *)
Inductive ChatOutcome :=
| answered (content : string)
| max_iterations_reached.

Section Chat.

Variable JSON_parse : string -> option MessageHistory.t.
Variable JSON_stringify : MessageHistory.t -> string.

(** The content of a reply that is not a string, and [JSON.stringify] on it. *)
Variable MessageContentComplex : Type.
Variable JSON_stringify_content : MessageContentComplex -> string.

Inductive MessageContent :=
| text (s : string)
| complex (c : MessageContentComplex).

(** The reply of the model; [tool_calls] can be absent. *)
Record AIMessageChunk := mkAIMessageChunk {
  reply_content : MessageContent;
  tool_calls : option (list ToolCall.t)
}.

(** The messages given to the model: the stored ones, the replies of the
    model as they came, and the results of the tool. *)
Inductive BaseMessage :=
| SystemMessage (content : string)
| HumanMessage (content : string)
| AIMessage (content : string)
| reply (response : AIMessageChunk)
| tool_result (content : string) (tool_call_id : option string).

(** [getSystemPrompt()]: a text fixed by the platform, the shell and the
    working directory. *)
Variable getSystemPrompt : string.
(** [modelWithTools.invoke(messages)]; it can throw. *)
Variable invoke : list BaseMessage -> M AIMessageChunk.
Variable execSync : ExecSync.

Definition storedToLangchain (stored : list StoredMessage) : list BaseMessage :=
  map (fun m =>
         match role m with
         | system => SystemMessage (content m)
         | human => HumanMessage (content m)
         | assistant => AIMessage (content m)
         end)
      stored.

(** The body of [for (const toolCall of response.tool_calls)]. *)
Definition run_tool_call (messages : list BaseMessage) (toolCall : ToolCall.t)
  : M (list BaseMessage) :=
  if String.eqb (ToolCall.name toolCall) "bash" then
    result <- bashTool execSync (ToolCall.args toolCall) ;;
    ret (messages ++ [tool_result result (ToolCall.id toolCall)])
  else ret messages.

(** [typeof response.content === "string" ? response.content
     : JSON.stringify(response.content)] *)
Definition content_text (c : MessageContent) : string :=
  match c with
  | text s => s
  | complex v => JSON_stringify_content v
  end.

(** The [while] loop of [chat] with [remaining] iterations left. *)
Fixpoint chat_loop (remaining : nat) (history : MessageHistory.t)
         (messages : list BaseMessage) : M ChatOutcome :=
  match remaining with
  | O => ret max_iterations_reached
  | S remaining' =>
      response <- invoke messages ;;
      let messages := messages ++ [reply response] in
      match tool_calls response with
      | Some (toolCall :: rest) =>
          messages <- for_of (toolCall :: rest) run_tool_call messages ;;
          chat_loop remaining' history messages
      | _ =>
          let content := content_text (reply_content response) in
          timestamp <- new_Date_toISOString ;;
          let history :=
            push_message history (mkStoredMessage assistant content timestamp) in
          saveActiveMessage JSON_stringify history ;;
          ret (answered content)
      end
  end.

Definition maxIterations : nat := 10.

(** [chat] from the bound model on (lines 374-443). *)
Definition chat (uuid query : string) : M ChatOutcome :=
  loaded <- loadActiveMessage JSON_parse ;;
  history <- match loaded with
             | Some h => ret h
             | None => createNewHistory uuid
             end ;;
  history <-
    (if (List.length (MessageHistory.messages history) =? 0)%nat then
       timestamp <- new_Date_toISOString ;;
       ret (push_message history
              (mkStoredMessage system getSystemPrompt timestamp))
     else ret history) ;;
  timestamp <- new_Date_toISOString ;;
  let history := push_message history (mkStoredMessage human query timestamp) in
  let messages := storedToLangchain (MessageHistory.messages history) in
  chat_loop maxIterations history messages.

End Chat.

Arguments text {MessageContentComplex} s.
Arguments complex {MessageContentComplex} c.
Arguments mkAIMessageChunk {MessageContentComplex} reply_content tool_calls.
Arguments reply_content {MessageContentComplex} a.
Arguments tool_calls {MessageContentComplex} a.
Arguments SystemMessage {MessageContentComplex} content.
Arguments HumanMessage {MessageContentComplex} content.
Arguments AIMessage {MessageContentComplex} content.
Arguments reply {MessageContentComplex} response.
Arguments tool_result {MessageContentComplex} content tool_call_id.
Arguments storedToLangchain {MessageContentComplex} stored.
Arguments run_tool_call {MessageContentComplex} execSync messages toolCall _.
Arguments content_text {MessageContentComplex} JSON_stringify_content c.
Arguments chat_loop JSON_stringify {MessageContentComplex}
  JSON_stringify_content invoke execSync remaining history messages _.
Arguments chat JSON_parse JSON_stringify {MessageContentComplex}
  JSON_stringify_content getSystemPrompt invoke execSync uuid query _.

(** The number of replies of the model among the messages. *)
Definition count_replies {MessageContentComplex : Type}
           (messages : list (BaseMessage MessageContentComplex)) : nat :=
  List.length
    (filter (fun m => match m with reply _ => true | _ => false end) messages).

(** ** What [chat] starts from *)

(** A computation that leaves the files of [~/.cx] alone. *)
Definition leaves_files {A} (m : World -> A * World) : Prop :=
  forall w, disk (snd (m w)) = disk w /\ trace (snd (m w)) = trace w.

Section ChatEffects.

Variable JSON_parse : string -> option MessageHistory.t.
Variable getSystemPrompt : string.

(** The conversation [chat] starts from, before the question is added, and
    the number of clock readings made for it: the active conversation, with
    the system message when it has no message; a new conversation with the
    system message when there is none. *)
Definition opening (uuid : string) (w : World) : MessageHistory.t * nat :=
  match active_record JSON_parse (disk w) with
  | Some h =>
      if (List.length (MessageHistory.messages h) =? 0)%nat
      then (push_message h (mkStoredMessage system getSystemPrompt
                                            (clock w (tick w))), 1)
      else (h, 0)
  | None =>
      (push_message
         (MessageHistory.mk uuid (clock w (tick w)) (clock w (1 + tick w)) [])
         (mkStoredMessage system getSystemPrompt (clock w (2 + tick w))), 3)
  end.

(** The conversation [chat] hands to its loop. *)
Definition asked (uuid query : string) (w : World) : MessageHistory.t :=
  push_message (fst (opening uuid w))
               (mkStoredMessage human query
                                (clock w (snd (opening uuid w) + tick w))).

(** The world in which the loop of [chat] starts. *)
Definition asked_world (uuid : string) (w : World) : World :=
  mkWorld (ensured (disk w)) (clock w) (1 + (snd (opening uuid w) + tick w))
          (trace w ++ mkdirs (disk w)).

End ChatEffects.

(** ** The sentences of the specification that the store does not meet,
    as they are written *)

Module Stated.



Definition is_mkdir (op : FsOp) : bool :=
  match op with mkdir _ => true | _ => false end.

Definition File_eqb (a b : File) : bool :=
  match a, b with
  | ACTIVE_MESSAGE_PATH, ACTIVE_MESSAGE_PATH => true
  | HistoryFile x, HistoryFile y => String.eqb x y
  | _, _ => false
  end.

(** Section 5: "write to a temporary path, then atomically replace the
    target". *)
Definition write_then_rename (target : File) (ops : list FsOp) : bool :=
  match filter (fun op => negb (is_mkdir op)) ops with
  | [write tmp _; rename src dst] =>
      negb (File_eqb tmp target) && File_eqb src tmp && File_eqb dst target
  | _ => false
  end.

End Stated.




(** ** An instance of the codec: JSON text

    [stringify] prints as [JSON.stringify(value, null, 2)] does; [parse]
    reads the JSON grammar.  A character is one of the 256 of [ascii]; an
    escape [\uXXXX] above that range is outside the alphabet and refused. *)

Module Json.

#[local] Set Warnings "-register-all".
Local Open Scope string_scope.

Inductive value :=
| JNull
| JBool (b : bool)
| JNumber (lexeme : string)
| JString (s : string)
| JArray (items : list value)
| JObject (members : list (string * value)).

Definition dquote : ascii := ascii_of_nat 34.
Definition newline : ascii := ascii_of_nat 10.
Definition nl : string := String newline EmptyString.

(** *** Printing *)

Definition hex_digit (n : nat) : ascii :=
  nth n ["0"; "1"; "2"; "3"; "4"; "5"; "6"; "7"; "8"; "9";
         "a"; "b"; "c"; "d"; "e"; "f"]%char "0"%char.

Definition escape_char (c : ascii) : string :=
  let n := nat_of_ascii c in
  if Ascii.eqb c dquote then String "\" (String dquote "")
  else if Ascii.eqb c "\" then "\\"
  else if (n =? 8)%nat then "\b"
  else if (n =? 12)%nat then "\f"
  else if (n =? 10)%nat then "\n"
  else if (n =? 13)%nat then "\r"
  else if (n =? 9)%nat then "\t"
  else if (n <? 32)%nat then
    "\u00" ++ String (hex_digit (n / 16)) (String (hex_digit (n mod 16)) "")
  else String c "".

Fixpoint escape (s : string) : string :=
  match s with
  | EmptyString => EmptyString
  | String c s' => escape_char c ++ escape s'
  end.

Definition quote (s : string) : string :=
  String dquote (escape s ++ String dquote "").

(** The items of an array or object after the first, each after a comma
    and a line break. *)
Definition more_items {A} (item : A -> string) (inner : string)
  : list A -> string :=
  fix more (l : list A) : string :=
    match l with
    | [] => ""
    | y :: l' => "," ++ nl ++ inner ++ item y ++ more l'
    end.

(** A member of an object: its key, a colon, its value. *)
Definition member_text (item : value -> string) (kv : string * value) : string :=
  let (k, y) := kv in quote k ++ ": " ++ item y.

Fixpoint stringify_value (indent : string) (v : value) : string :=
  match v with
  | JNull => "null"
  | JBool true => "true"
  | JBool false => "false"
  | JNumber lexeme => lexeme
  | JString s => quote s
  | JArray [] => "[]"
  | JArray (x :: xs) =>
      let inner := indent ++ "  " in
      "[" ++ nl ++ inner ++ stringify_value inner x
      ++ more_items (stringify_value inner) inner xs
      ++ nl ++ indent ++ "]"
  | JObject [] => "{}"
  | JObject ((k, x) :: xs) =>
      let inner := indent ++ "  " in
      "{" ++ nl ++ inner ++ quote k ++ ": " ++ stringify_value inner x
      ++ more_items (member_text (stringify_value inner)) inner xs
      ++ nl ++ indent ++ "}"
  end.

(** *** Parsing *)

Definition is_ws (c : ascii) : bool :=
  let n := nat_of_ascii c in
  (n =? 32)%nat || (n =? 10)%nat || (n =? 13)%nat || (n =? 9)%nat.

Fixpoint skip_ws (s : string) : string :=
  match s with
  | EmptyString => EmptyString
  | String c r => if is_ws c then skip_ws r else s
  end.

Definition hex_value (c : ascii) : option nat :=
  let n := nat_of_ascii c in
  if (48 <=? n)%nat && (n <=? 57)%nat then Some (n - 48)
  else if (97 <=? n)%nat && (n <=? 102)%nat then Some (n - 87)
  else if (65 <=? n)%nat && (n <=? 70)%nat then Some (n - 55)
  else None.

(** the character of [\uXXXX], when it is below 256 *)
Definition code_unit (h1 h2 h3 h4 : ascii) : option ascii :=
  match hex_value h1, hex_value h2, hex_value h3, hex_value h4 with
  | Some 0, Some 0, Some c, Some d => Some (ascii_of_nat (16 * c + d))
  | _, _, _, _ => None
  end.

Definition unescape (e : ascii) : option ascii :=
  if Ascii.eqb e dquote then Some dquote
  else if Ascii.eqb e "\" then Some "\"%char
  else if Ascii.eqb e "/" then Some "/"%char
  else if Ascii.eqb e "b" then Some (ascii_of_nat 8)
  else if Ascii.eqb e "f" then Some (ascii_of_nat 12)
  else if Ascii.eqb e "n" then Some (ascii_of_nat 10)
  else if Ascii.eqb e "r" then Some (ascii_of_nat 13)
  else if Ascii.eqb e "t" then Some (ascii_of_nat 9)
  else None.

Definition push (c : option ascii) (r : option (string * string))
  : option (string * string) :=
  match c, r with
  | Some c, Some (s, rest) => Some (String c s, rest)
  | _, _ => None
  end.

(** The characters of a string literal after its opening quote, and what
    follows the closing quote. *)
Fixpoint parse_string_body (s : string) : option (string * string) :=
  match s with
  | EmptyString => None
  | String c r =>
      if Ascii.eqb c dquote then Some (EmptyString, r)
      else if Ascii.eqb c "\" then
        match r with
        | EmptyString => None
        | String e r1 =>
            if Ascii.eqb e "u" then
              match r1 with
              | String h1 (String h2 (String h3 (String h4 r2))) =>
                  push (code_unit h1 h2 h3 h4) (parse_string_body r2)
              | _ => None
              end
            else push (unescape e) (parse_string_body r1)
        end
      else if (nat_of_ascii c <? 32)%nat then None
      else push (Some c) (parse_string_body r)
  end.

Definition is_digit (c : ascii) : bool :=
  let n := nat_of_ascii c in (48 <=? n)%nat && (n <=? 57)%nat.

Fixpoint take_digits (s : string) : string * string :=
  match s with
  | String c r =>
      if is_digit c then let (d, r') := take_digits r in (String c d, r')
      else (EmptyString, s)
  | EmptyString => (EmptyString, EmptyString)
  end.

(** A number: an optional minus, an integer part without a leading zero,
    an optional fraction, an optional exponent.  The lexeme is kept. *)
Definition parse_number (s : string) : option (string * string) :=
  let (sign, s1) :=
    match s with
    | String "-" r => ("-", r)
    | _ => ("", s)
    end in
  let (int, s2) := take_digits s1 in
  let int_ok :=
    match int with
    | EmptyString => false
    | String "0" (String _ _) => false
    | _ => true
    end in
  if negb int_ok then None
  else
    let frac :=
      match s2 with
      | String "." r =>
          let (d, r') := take_digits r in
          match d with
          | EmptyString => None
          | _ => Some ("." ++ d, r')
          end
      | _ => Some ("", s2)
      end in
    match frac with
    | None => None
    | Some (fr, s3) =>
        let exp :=
          match s3 with
          | String e r =>
              if Ascii.eqb e "e" || Ascii.eqb e "E" then
                let (sg, r1) :=
                  match r with
                  | String "+" r1 => ("+", r1)
                  | String "-" r1 => ("-", r1)
                  | _ => ("", r)
                  end in
                let (d, r2) := take_digits r1 in
                match d with
                | EmptyString => None
                | _ => Some (String e (sg ++ d), r2)
                end
              else Some ("", s3)
          | EmptyString => Some ("", s3)
          end in
        match exp with
        | None => None
        | Some (ex, s4) => Some (sign ++ int ++ fr ++ ex, s4)
        end
    end.

Definition literal (word : string) (v : value) (s : string)
  : option (value * string) :=
  if String.prefix word s then Some (v, Js.drop (String.length word) s)
  else None.

(** Skip white space, then consume the character [c] if it comes next. *)
Definition expect (c : ascii) (s : string) : option string :=
  match skip_ws s with
  | String c' r => if Ascii.eqb c' c then Some r else None
  | EmptyString => None
  end.

(** The key of a member and its colon. *)
Definition parse_key (s : string) : option (string * string) :=
  match expect dquote s with
  | Some r =>
      match parse_string_body r with
      | Some (k, r') =>
          match expect ":" r' with
          | Some r'' => Some (k, r'')
          | None => None
          end
      | None => None
      end
  | None => None
  end.

Fixpoint parse_value (fuel : nat) (s : string) : option (value * string) :=
  match fuel with
  | O => None
  | S fuel' =>
      match skip_ws s with
      | EmptyString => None
      | String c r =>
          if Ascii.eqb c dquote then
            match parse_string_body r with
            | Some (str, r') => Some (JString str, r')
            | None => None
            end
          else if Ascii.eqb c "[" then
            match expect "]" r with
            | Some r' => Some (JArray [], r')
            | None =>
                match parse_elements fuel' r with
                | Some (items, r') => Some (JArray items, r')
                | None => None
                end
            end
          else if Ascii.eqb c "{" then
            match expect "}" r with
            | Some r' => Some (JObject [], r')
            | None =>
                match parse_members fuel' r with
                | Some (members, r') => Some (JObject members, r')
                | None => None
                end
            end
          else if Ascii.eqb c "n" then literal "null" JNull (String c r)
          else if Ascii.eqb c "t" then literal "true" (JBool true) (String c r)
          else if Ascii.eqb c "f" then literal "false" (JBool false) (String c r)
          else
            match parse_number (String c r) with
            | Some (lexeme, r') => Some (JNumber lexeme, r')
            | None => None
            end
      end
  end

with parse_elements (fuel : nat) (s : string) : option (list value * string) :=
  match fuel with
  | O => None
  | S fuel' =>
      match parse_value fuel' s with
      | Some (v, r) =>
          match expect "," r with
          | Some r' =>
              match parse_elements fuel' r' with
              | Some (vs, r'') => Some (v :: vs, r'')
              | None => None
              end
          | None =>
              match expect "]" r with
              | Some r' => Some ([v], r')
              | None => None
              end
          end
      | None => None
      end
  end

with parse_members (fuel : nat) (s : string)
  : option (list (string * value) * string) :=
  match fuel with
  | O => None
  | S fuel' =>
      match parse_key s with
      | Some (k, r) =>
          match parse_value fuel' r with
          | Some (v, r1) =>
              match expect "," r1 with
              | Some r2 =>
                  match parse_members fuel' r2 with
                  | Some (ms, r3) => Some ((k, v) :: ms, r3)
                  | None => None
                  end
              | None =>
                  match expect "}" r1 with
                  | Some r2 => Some ([(k, v)], r2)
                  | None => None
                  end
              end
          | None => None
          end
      | None => None
      end
  end.

(** A whole JSON text: one value, then white space only. *)
Definition parse_text (s : string) : option value :=
  match parse_value (2 * String.length s + 2) s with
  | Some (v, r) =>
      match skip_ws r with
      | EmptyString => Some v
      | _ => None
      end
  | None => None
  end.

(** *** Measures on values *)

(** Fuel that is enough to read a printed value back. *)
Fixpoint size (v : value) : nat :=
  match v with
  | JArray items => S (fold_right (fun x acc => S (size x + acc)) 0 items)
  | JObject members =>
      S (fold_right (fun (kv : string * value) acc => S (size (snd kv) + acc))
                    0 members)
  | _ => 1
  end.

(** No number occurs in the value. *)
Fixpoint number_free (v : value) : bool :=
  match v with
  | JNumber _ => false
  | JArray items => forallb number_free items
  | JObject members =>
      forallb (fun kv : string * value => number_free (snd kv)) members
  | _ => true
  end.

Fixpoint all_ws (s : string) : bool :=
  match s with
  | EmptyString => true
  | String c r => is_ws c && all_ws r
  end.

(** *** [MessageHistory] as JSON *)

Definition role_name (r : Role) : string :=
  match r with
  | system => "system"
  | human => "human"
  | assistant => "assistant"
  end.

Definition role_of_name (s : string) : option Role :=
  if String.eqb s "system" then Some system
  else if String.eqb s "human" then Some human
  else if String.eqb s "assistant" then Some assistant
  else None.

Definition message_value (m : StoredMessage) : value :=
  JObject [("role", JString (role_name (role m)));
           ("content", JString (content m));
           ("timestamp", JString (timestamp m))].

Definition history_value (h : MessageHistory.t) : value :=
  JObject [("id", JString (MessageHistory.id h));
           ("created", JString (MessageHistory.created h));
           ("updated", JString (MessageHistory.updated h));
           ("messages", JArray (map message_value (MessageHistory.messages h)))].

(** [JSON.stringify(history, null, 2)] *)
Definition stringify (h : MessageHistory.t) : string :=
  stringify_value "" (history_value h).

(** Property access on a parsed object: the last member of that name. *)
Fixpoint get (key : string) (members : list (string * value)) : option value :=
  match members with
  | [] => None
  | (k, v) :: ms =>
      match get key ms with
      | Some v' => Some v'
      | None => if String.eqb k key then Some v else None
      end
  end.

Definition get_string (key : string) (members : list (string * value))
  : option string :=
  match get key members with
  | Some (JString s) => Some s
  | _ => None
  end.

Definition message_of_value (v : value) : option StoredMessage :=
  match v with
  | JObject ms =>
      match get_string "role" ms, get_string "content" ms,
            get_string "timestamp" ms with
      | Some r, Some c, Some t =>
          match role_of_name r with
          | Some r' => Some (mkStoredMessage r' c t)
          | None => None
          end
      | _, _, _ => None
      end
  | _ => None
  end.

Fixpoint messages_of_values (vs : list value) : option (list StoredMessage) :=
  match vs with
  | [] => Some []
  | v :: vs' =>
      match message_of_value v, messages_of_values vs' with
      | Some m, Some ms => Some (m :: ms)
      | _, _ => None
      end
  end.

(** The cast [as MessageHistory], checked. *)
Definition history_of_value (v : value) : option MessageHistory.t :=
  match v with
  | JObject ms =>
      match get_string "id" ms, get_string "created" ms,
            get_string "updated" ms, get "messages" ms with
      | Some i, Some c, Some u, Some (JArray items) =>
          match messages_of_values items with
          | Some msgs => Some (MessageHistory.mk i c u msgs)
          | None => None
          end
      | _, _, _, _ => None
      end
  | _ => None
  end.

(** [JSON.parse(content) as MessageHistory] *)
Definition parse (content : string) : option MessageHistory.t :=
  match parse_text content with
  | Some v => history_of_value v
  | None => None
  end.

(** Induction on values, through the lists of arrays and objects. *)
Section value_induction.
Variable P : value -> Prop.
Hypothesis Hnull : P JNull.
Hypothesis Hbool : forall b, P (JBool b).
Hypothesis Hnum : forall l, P (JNumber l).
Hypothesis Hstr : forall s, P (JString s).
Hypothesis Harr : forall items, Forall P items -> P (JArray items).
Hypothesis Hobj :
  forall members, Forall (fun kv => P (snd kv)) members -> P (JObject members).

Fixpoint value_nested_ind (v : value) : P v :=
  match v with
  | JNull => Hnull
  | JBool b => Hbool b
  | JNumber l => Hnum l
  | JString s => Hstr s
  | JArray items =>
      Harr items
        ((fix go (l : list value) : Forall P l :=
            match l with
            | [] => Forall_nil P
            | x :: l' => Forall_cons x (value_nested_ind x) (go l')
            end) items)
  | JObject members =>
      Hobj members
        ((fix go (l : list (string * value))
            : Forall (fun kv => P (snd kv)) l :=
            match l with
            | [] => Forall_nil _
            | kv :: l' =>
                Forall_cons kv
                  (match kv as p return P (snd p) with
                   | (_, x) => value_nested_ind x
                   end)
                  (go l')
            end) members)
  end.
End value_induction.

(** The characters a printed value without numbers can start with. *)
Definition value_start (c : ascii) : bool :=
  Ascii.eqb c dquote || Ascii.eqb c "[" || Ascii.eqb c "{"
  || Ascii.eqb c "n" || Ascii.eqb c "t" || Ascii.eqb c "f".

(** [parse_value] reads a printed [v] back, whatever the indentation, the
    white space before it and the text after it. *)
Definition reads_back (v : value) : Prop :=
  number_free v = true ->
  forall indent w rest n,
    all_ws indent = true -> all_ws w = true -> size v <= n ->
    parse_value n (w ++ stringify_value indent v ++ rest) = Some (v, rest).

End Json.

(** ** Calendar dates *)

Module Calendar.

Local Open Scope nat_scope.

Record date := mkDate { year : nat; month : nat; day : nat }.

Definition is_leap (y : nat) : bool :=
  ((y mod 4 =? 0) && negb (y mod 100 =? 0)) || (y mod 400 =? 0).

Definition days_in_month (y m : nat) : nat :=
  match m with
  | 2 => if is_leap y then 29 else 28
  | 4 | 6 | 9 | 11 => 30
  | _ => 31
  end.

Definition valid (d : date) : bool :=
  (1 <=? month d) && (month d <=? 12)
  && (1 <=? day d) && (day d <=? days_in_month (year d) (month d)).

Definition eqb (a b : date) : bool :=
  (year a =? year b) && (month a =? month b) && (day a =? day b).

(** [a] is strictly before [b] *)
Definition ltb (a b : date) : bool :=
  (year a <? year b)
  || ((year a =? year b)
      && ((month a <? month b)
          || ((month a =? month b) && (day a <? day b)))).

Definition next_day (d : date) : date :=
  if day d <? days_in_month (year d) (month d)
  then mkDate (year d) (month d) (S (day d))
  else if month d <? 12 then mkDate (year d) (S (month d)) 1
  else mkDate (S (year d)) 1 1.

Fixpoint add_days (n : nat) (d : date) : date :=
  match n with
  | O => d
  | S n' => add_days n' (next_day d)
  end.

(** Days since 1970-01-01. *)
Definition days_from_civil (d : date) : Z :=
  let y := (Z.of_nat (year d) - (if Nat.leb (month d) 2 then 1 else 0))%Z in
  let m := Z.of_nat (month d) in
  let era := (y / 400)%Z in
  let yoe := (y - era * 400)%Z in
  let doy :=
    ((153 * (m + (if Nat.leb (month d) 2 then 9 else -3)) + 2) / 5
     + Z.of_nat (day d) - 1)%Z in
  let doe := (yoe * 365 + yoe / 4 - yoe / 100 + doy)%Z in
  (era * 146097 + doe - 719468)%Z.

Inductive Weekday :=
| sunday | monday | tuesday | wednesday | thursday | friday | saturday.

Definition Weekday_eqb (a b : Weekday) : bool :=
  match a, b with
  | sunday, sunday | monday, monday | tuesday, tuesday
  | wednesday, wednesday | thursday, thursday | friday, friday
  | saturday, saturday => true
  | _, _ => false
  end.

(** 1970-01-01 was a Thursday. *)
Definition weekday_of (d : date) : Weekday :=
  match ((days_from_civil d + 4) mod 7)%Z with
  | 0%Z => sunday
  | 1%Z => monday
  | 2%Z => tuesday
  | 3%Z => wednesday
  | 4%Z => thursday
  | 5%Z => friday
  | _ => saturday
  end.

End Calendar.

(** ** An instance of [Date] parsing: the format [toISOString] writes

    [YYYY-MM-DDTHH:mm:ss.sssZ], in milliseconds since the epoch.  Any other
    text is [NaN] here. *)

Module IsoDate.

Local Open Scope nat_scope.

Definition digit (c : ascii) : option nat :=
  let n := nat_of_ascii c in
  if (48 <=? n) && (n <=? 57) then Some (n - 48) else None.

Fixpoint number (cs : list ascii) (acc : nat) : option nat :=
  match cs with
  | [] => Some acc
  | c :: cs' =>
      match digit c with
      | Some d => number cs' (10 * acc + d)
      | None => None
      end
  end.

Definition getTime (s : string) : option Z :=
  match list_ascii_of_string s with
  | [y1; y2; y3; y4; s1; m1; m2; s2; d1; d2; t; h1; h2; c1; i1; i2; c2;
     e1; e2; p; f1; f2; f3; z] =>
      if Ascii.eqb s1 "-" && Ascii.eqb s2 "-" && Ascii.eqb t "T"
         && Ascii.eqb c1 ":" && Ascii.eqb c2 ":" && Ascii.eqb p "."
         && Ascii.eqb z "Z"
      then
        match number [y1; y2; y3; y4] 0, number [m1; m2] 0, number [d1; d2] 0,
              number [h1; h2] 0, number [i1; i2] 0, number [e1; e2] 0,
              number [f1; f2; f3] 0 with
        | Some y, Some m, Some d, Some h, Some mi, Some sec, Some ms =>
            let date := Calendar.mkDate y m d in
            if Calendar.valid date && (h <? 24) && (mi <? 60) && (sec <? 60)
            then
              Some ((((Calendar.days_from_civil date * 24 + Z.of_nat h) * 60
                      + Z.of_nat mi) * 60 + Z.of_nat sec) * 1000
                    + Z.of_nat ms)%Z
            else None
        | _, _, _, _, _, _, _ => None
        end
      else None
  | _ => None
  end.

End IsoDate.

(** ** The task engine of [tx]: focus scorer and recurrence engine

    The source of [tx] is not among the files of [src/]; only its manual
    is.  The definitions of this module follow sections 3, 4.3 and 4.5 of
    the specification. *)

Module Tx.

Import Calendar.
Local Open Scope nat_scope.

(** Modelled from the spec: the status of a task of [tx] (source absent),
    [open] or [completed]. *)
Inductive Status := open | completed.

(** Modelled from the spec: the frequency class of a recurrence descriptor
    of [tx] (source absent). *)
Inductive Frequency := daily | weekly | monthly | yearly.

(** Modelled from the spec: the anchor of a recurrence descriptor of [tx]
    (source absent), "weekday name or day-of-month", as it reads when the
    recurrence engine parses it: a weekday, a day of the month, or a text
    that is neither ("if the anchor is unparseable"). *)
Inductive Anchor :=
| on_weekday (w : Weekday)
| on_day (d : nat)
| unparseable (raw : string).

(** Modelled from the spec: the recurrence descriptor of [tx] (source
    absent), "frequency class, optional anchor". *)
Record Recurrence := mkRecurrence {
  frequency : Frequency;
  anchor : option Anchor
}.

(** Modelled from the spec: the completion record of a task of [tx] (source
    absent), "completed-at timestamp, elapsed duration, free-text note". *)
Record CompletionRecord := mkCompletionRecord {
  completed_at : date;
  elapsed : option nat;
  note : string
}.

(** Modelled from the spec: the task record of [tx] (source absent),
    section 3: identity, raw description, creation timestamp, status,
    discovered fields, optional deadline, optional recurrence descriptor,
    optional completion record, outgoing "blocks" edges. *)
Record Task := mkTask {
  id : string;
  description : string;
  created : Z;
  status : Status;
  fields : list (string * string);
  deadline : option date;
  recurrence : option Recurrence;
  completion : option CompletionRecord;
  blocks : list string
}.

(** Modelled from the spec: a task of [tx] (source absent) with status
    [open]. *)
Definition is_open (t : Task) : bool :=
  match status t with open => true | completed => false end.

(** Modelled from the spec: the value of a discovered field of a task of
    [tx] (source absent). *)
Fixpoint field (name : string) (fs : list (string * string)) : option string :=
  match fs with
  | [] => None
  | (k, v) :: fs' => if String.eqb k name then Some v else field name fs'
  end.

(** Modelled from the spec: "priority field equals" of the scorer of [tx]
    (source absent). *)
Definition priority_is (p : string) (t : Task) : bool :=
  match field "priority" (fields t) with
  | Some v => String.eqb v p
  | None => false
  end.

(** Modelled from the spec: "overdue (deadline strictly before current
    date)" of the scorer of [tx] (source absent). *)
Definition overdue (today : date) (t : Task) : bool :=
  match deadline t with
  | Some d => Calendar.ltb d today
  | None => false
  end.

(** Modelled from the spec: "due today" of the scorer of [tx] (source
    absent). *)
Definition due_today (today : date) (t : Task) : bool :=
  match deadline t with
  | Some d => Calendar.eqb d today
  | None => false
  end.

(** Modelled from the spec: the identifier of a task of [tx] (source
    absent) that is still open. *)
Definition open_with_id (tasks : list Task) (i : string) : bool :=
  existsb (fun b => is_open b && String.eqb (id b) i) tasks.

(** Modelled from the spec: "each task this one currently blocks that is
    still open", for the scorer of [tx] (source absent). *)
Definition open_blocked (tasks : list Task) (t : Task) : list string :=
  filter (open_with_id tasks) (blocks t).

(** Modelled from the spec: [isBlocked] of the dependency graph of [tx]
    (source absent): "a task is blocked iff at least one task in its
    inbound edge set has status open". *)
Definition isBlocked (tasks : list Task) (t : Task) : bool :=
  existsb (fun b => is_open b && existsb (String.eqb (id t)) (blocks b)) tasks.

(** Modelled from the spec: the focus score of [tx] (source absent),
    section 4.5: the contributions are added one after the other. *)
Definition score (today : date) (tasks : list Task) (t : Task) : Z :=
  let s := 0%Z in
  let s := if overdue today t then (s + 200)%Z else s in
  let s := if due_today today t then (s + 100)%Z else s in
  let s := if priority_is "urgent" t then (s + 100)%Z else s in
  let s := if priority_is "high" t then (s + 50)%Z else s in
  let s := (s + 40 * Z.of_nat (List.length (open_blocked tasks t)))%Z in
  if isBlocked tasks t then (s - 50)%Z else s.

(** Modelled from the spec: "earliest deadline" in the order of the focus
    view of [tx] (source absent): [a] is due no later than [b]; a task
    without deadline comes last. *)
Definition deadline_leb (a b : Task) : bool :=
  match deadline a, deadline b with
  | Some x, Some y => negb (Calendar.ltb y x)
  | Some _, None => true
  | None, Some _ => false
  | None, None => true
  end.

(** Modelled from the spec: equal deadlines, for the ties of the focus view
    of [tx] (source absent). *)
Definition deadline_eqb (a b : Task) : bool :=
  deadline_leb a b && deadline_leb b a.

(** Modelled from the spec: the order of the focus view of [tx] (source
    absent): higher score first, "ties broken by earliest deadline, then
    earliest creation time". *)
Definition ranks_before (today : date) (tasks : list Task) (a b : Task) : bool :=
  (score today tasks b <? score today tasks a)%Z
  || ((score today tasks a =? score today tasks b)%Z
      && ((deadline_leb a b && negb (deadline_leb b a))
          || (deadline_eqb a b && (created a <=? created b)%Z))).

(** Modelled from the spec: insertion of a task at its rank in the focus
    view of [tx] (source absent). *)
Fixpoint rank_insert (today : date) (tasks : list Task) (t : Task)
         (l : list Task) : list Task :=
  match l with
  | [] => [t]
  | u :: l' =>
      if ranks_before today tasks t u then t :: u :: l'
      else u :: rank_insert today tasks t l'
  end.

(** Modelled from the spec: the focus view of [tx] (source absent): the
    open tasks in the order of the scorer. *)
Definition focus (today : date) (tasks : list Task) : list Task :=
  fold_right (rank_insert today tasks) [] (filter is_open tasks).

(** Modelled from the spec: "next month" of the recurrence engine of [tx]
    (source absent): the month after month [m] of year [y]. *)
Definition month_after (y m : nat) : nat * nat :=
  if m <? 12 then (y, S m) else (S y, 1).

(** Modelled from the spec: "next date matching the anchor weekday" of the
    recurrence engine of [tx] (source absent): the first of the [n] days
    from [d] on that falls on weekday [w]. *)
Fixpoint first_on (n : nat) (w : Weekday) (d : date) : date :=
  match n with
  | O => d
  | S n' =>
      if Weekday_eqb (weekday_of d) w then d
      else first_on n' w (next_day d)
  end.

(** Modelled from the spec: the next deadline of a recurring task of [tx]
    (source absent), section 4.3: daily, one day after [base]; weekly on an
    anchor, the next date on the anchor weekday strictly after [base];
    monthly on an anchor, the anchor day in the next month, clamped to the
    last day of that month; yearly, the same month and day in the next
    year.  An anchor that is unparseable, or is not one of its frequency,
    gives no next occurrence. *)
Definition nextDeadline (r : Recurrence) (base : date) : option date :=
  match anchor r with
  | Some (unparseable _) => None
  | a =>
      match frequency r with
      | daily => Some (next_day base)
      | weekly =>
          match a with
          | Some (on_weekday w) => Some (first_on 6 w (next_day base))
          | None => Some (add_days 7 base)
          | _ => None
          end
      | monthly =>
          let (y, m) := month_after (year base) (month base) in
          match a with
          | Some (on_day d) =>
              if (1 <=? d) && (d <=? 31)
              then Some (mkDate y m (Nat.min d (days_in_month y m)))
              else None
          | None => Some (mkDate y m (Nat.min (day base) (days_in_month y m)))
          | _ => None
          end
      | yearly =>
          Some (mkDate (S (year base)) (month base)
                       (Nat.min (day base)
                                (days_in_month (S (year base)) (month base))))
      end
  end.



End Tx.

(** ** Sample data *)

Module Sample.

Definition stamp (n : nat) : string := "2025-06-01T12:00:00.000Z".

Definition talk : MessageHistory.t :=
  MessageHistory.mk "3f2a9c1e" "2025-01-01T10:00:00.000Z"
                    "2025-01-01T10:05:00.000Z"
                    [mkStoredMessage system "You are a helpful assistant."
                                     "2025-01-01T10:00:00.000Z";
                     mkStoredMessage human "what is the capital of china"
                                     "2025-01-01T10:00:01.000Z";
                     mkStoredMessage assistant "Beijing."
                                     "2025-01-01T10:05:00.000Z"].

Definition record (i : string) : MessageHistory.t :=
  MessageHistory.mk i "2025-02-01T08:00:00.000Z" "2025-02-01T08:30:00.000Z"
                    [mkStoredMessage human "hello" "2025-02-01T08:00:00.000Z"].

Definition file (i : string) : string * string :=
  ((i ++ ".json")%string, Json.stringify (record i)).

(** A world with the given active file and history files. *)
Definition world (active : option string) (files : Listing) : World :=
  mkWorld (Some (mkCxDir active (Some files))) stamp 0 [].

(** Tasks of [tx] on 2025-12-02. *)
Definition today : Calendar.date := Calendar.mkDate 2025 12 2.

Definition plain (i : string) : Tx.Task :=
  Tx.mkTask i "buy groceries" 0 Tx.open [] None None None [].

(** Due today, of normal priority, blocking two open tasks. *)
Definition blocker : Tx.Task :=
  Tx.mkTask "a1" "prepare slides" 0 Tx.open [("priority", "normal")]
            (Some today) None None ["b2"; "c3"].

(** Overdue and urgent. *)
Definition late : Tx.Task :=
  Tx.mkTask "d4" "call john" 0 Tx.open [("priority", "urgent")]
            (Some (Calendar.mkDate 2025 12 1)) None None [].

Definition tasks : list Tx.Task := [blocker; plain "b2"; plain "c3"; late].



End Sample.

(** ** Sample models and commands *)

Module Talk.

(** A model that answers at once. *)
Definition answers (messages : list (BaseMessage Empty_set))
  : M (AIMessageChunk Empty_set) :=
  ret (mkAIMessageChunk (text "Beijing.") None).

(** A model that asks for the bash tool in every reply. *)
Definition asks_for_ls (messages : list (BaseMessage Empty_set))
  : M (AIMessageChunk Empty_set) :=
  ret (mkAIMessageChunk (text "")
         (Some [ToolCall.mk "bash" "ls" (Some "call_1")])).

(** A model that asks for the bash tool until the messages hold [n]
    replies, and answers then. *)
Definition answers_after (n : nat) (messages : list (BaseMessage Empty_set))
  : M (AIMessageChunk Empty_set) :=
  if (count_replies messages <? n)%nat then asks_for_ls messages
  else answers messages.

(** These models reply with strings only. *)
Definition no_content (c : Empty_set) : string := match c with end.

(** One line, with white space around it. *)
Definition listing : string :=
  String (ascii_of_nat 32) ("notes.txt" ++ String (ascii_of_nat 10) "")%string.

(** A shell whose commands print that line. *)
Definition shell : ExecSync := fun command w => (inl listing, w).

Definition prompt : string := "You are a helpful, context-aware assistant.".

Definition config : Config.t :=
  Config.mk "local" None None
            (Some (LocalConfig.mk "http://localhost:11434/v1" "llama3.2" None)).

End Talk.

(** * Facts *)

(** ** Strings *)

Module StringFacts.

Local Open Scope string_scope.

Lemma string_app_assoc (a b c : string) : (a ++ b) ++ c = a ++ (b ++ c).
Proof. induction a as [|x a IH]; simpl; [reflexivity | now rewrite IH]. Qed.

Lemma string_app_nil_r (a : string) : a ++ "" = a.
Proof. induction a as [|x a IH]; simpl; [reflexivity | now rewrite IH]. Qed.

Lemma string_length_app (a b : string) :
  String.length (a ++ b) = String.length a + String.length b.
Proof. induction a as [|x a IH]; simpl; [reflexivity | now rewrite IH]. Qed.

Lemma prefix_nil (s : string) : String.prefix "" s = true.
Proof. now destruct s. Qed.

Lemma prefix_cons (c d : ascii) (p s : string) :
  String.prefix (String c p) (String d s) = Ascii.eqb c d && String.prefix p s.
Proof.
  simpl. destruct (ascii_dec c d) as [->|Hne].
  - now rewrite Ascii.eqb_refl.
  - apply Ascii.eqb_neq in Hne. now rewrite Hne.
Qed.

Lemma prefix_app (p s : string) : String.prefix p (p ++ s) = true.
Proof.
  induction p as [|c p IH]; [apply prefix_nil|].
  cbn [append]. now rewrite prefix_cons, Ascii.eqb_refl, IH.
Qed.

Lemma drop_app (a b : string) : Js.drop (String.length a) (a ++ b) = b.
Proof. induction a as [|c a IH]; simpl; auto. Qed.

Lemma endsWith_app (s suf : string) : Js.endsWith (s ++ suf) suf = true.
Proof.
  unfold Js.endsWith. rewrite string_length_app.
  replace (String.length s + String.length suf - String.length suf)
    with (String.length s) by lia.
  rewrite drop_app, String.eqb_refl.
  replace (Nat.leb _ _) with true; [reflexivity|].
  symmetry. apply Nat.leb_le. lia.
Qed.









Lemma startsWith_self (i s : string) : Js.startsWith (i ++ s) i = true.
Proof. apply prefix_app. Qed.

Lemma prefix_inv (p s : string) :
  String.prefix p s = true -> exists r, s = p ++ r.
Proof.
  revert s. induction p as [|c p IH]; intros s H.
  - now exists s.
  - destruct s as [|d s]; [discriminate|].
    rewrite prefix_cons in H. apply andb_true_iff in H as [Hc Hp].
    apply Ascii.eqb_eq in Hc. subst d.
    destruct (IH s Hp) as [r ->]. now exists r.
Qed.

(** A [.json] name as long as [i ++ ".json"] that starts with [i] is that
    name. *)
Lemma same_length_no_extension (i f : string) :
  Js.endsWith f ".json" = true -> Js.startsWith f i = true ->
  String.length f = String.length (i ++ ".json") ->
  f = i ++ ".json".
Proof.
  intros He Hs Hl. apply prefix_inv in Hs as [r ->].
  rewrite !string_length_app in Hl.
  unfold Js.endsWith in He. apply andb_true_iff in He as [_ He].
  apply String.eqb_eq in He. rewrite string_length_app in He.
  replace (String.length i + String.length r - String.length ".json")
    with (String.length i) in He by lia.
  rewrite drop_app in He. now subst r.
Qed.

(** Identifiers of one length, as those drawn by [randomUUID], are never
    the start of one another's file name. *)
Lemma equal_length_names_separate (i : string) (names : list string) :
  (forall f, In f names -> Js.endsWith f ".json" = true ->
             String.length f = String.length (i ++ ".json")) ->
  forall f, In f names -> f <> i ++ ".json" ->
            Js.endsWith f ".json" = true -> Js.startsWith f i = false.
Proof.
  intros Hlen f Hin Hne He.
  destruct (Js.startsWith f i) eqn:Hs; [|reflexivity].
  exfalso. apply Hne. apply same_length_no_extension; auto.
Qed.

End StringFacts.

(** ** The JSON instance reads back what it prints *)

Module JsonFacts.

Import Json StringFacts.
Local Open Scope string_scope.

Lemma parse_escape_char (c : ascii) (r : string) :
  parse_string_body (escape_char c ++ r) = push (Some c) (parse_string_body r).
Proof.
  destruct c as [[] [] [] [] [] [] [] []]; reflexivity.
Qed.

Lemma parse_escape (s rest : string) :
  parse_string_body (escape s ++ String dquote rest) = Some (s, rest).
Proof.
  induction s as [|c s IH]; simpl.
  - reflexivity.
  - rewrite string_app_assoc, parse_escape_char, IH. reflexivity.
Qed.

Lemma quote_app (s rest : string) :
  quote s ++ rest = String dquote (escape s ++ String dquote rest).
Proof. unfold quote. simpl. now rewrite string_app_assoc. Qed.

Lemma all_ws_app (a b : string) :
  all_ws a = true -> all_ws b = true -> all_ws (a ++ b) = true.
Proof.
  induction a as [|c a IH]; simpl; intros Ha Hb; [assumption|].
  apply andb_true_iff in Ha as [Hc Ha]. rewrite Hc. simpl. auto.
Qed.

Lemma skip_ws_app (w s : string) :
  all_ws w = true -> skip_ws (w ++ s) = skip_ws s.
Proof.
  induction w as [|c w IH]; simpl; intros H; [reflexivity|].
  apply andb_true_iff in H as [Hc Hw]. rewrite Hc. auto.
Qed.

Lemma skip_ws_stop (c : ascii) (r : string) :
  is_ws c = false -> skip_ws (String c r) = String c r.
Proof. intros H. simpl. now rewrite H. Qed.

Lemma expect_hit (c : ascii) (w r : string) :
  all_ws w = true -> is_ws c = false ->
  expect c (w ++ String c r) = Some r.
Proof.
  intros Hw Hc. unfold expect.
  rewrite skip_ws_app, skip_ws_stop by assumption.
  now rewrite Ascii.eqb_refl.
Qed.

Lemma expect_here (c : ascii) (r : string) :
  is_ws c = false -> expect c (String c r) = Some r.
Proof. intros H. apply (expect_hit c "" r); [reflexivity|assumption]. Qed.

Lemma expect_miss (c c' : ascii) (w r : string) :
  all_ws w = true -> is_ws c' = false -> Ascii.eqb c' c = false ->
  expect c (w ++ String c' r) = None.
Proof.
  intros Hw Hc Hne. unfold expect.
  rewrite skip_ws_app, skip_ws_stop by assumption.
  now rewrite Hne.
Qed.

Lemma stringify_head (indent rest : string) (v : value) :
  number_free v = true ->
  exists c t, stringify_value indent v ++ rest = String c t
              /\ value_start c = true.
Proof.
  destruct v as [ | [] | l | s | [|x xs] | [|[k x] xs] ]; simpl; intros H;
    try discriminate; eexists; eexists; (split; [reflexivity|reflexivity]).
Qed.

Lemma value_start_facts (c : ascii) :
  value_start c = true ->
  is_ws c = false /\ Ascii.eqb c "]" = false /\ Ascii.eqb c "}" = false
  /\ Ascii.eqb c "," = false.
Proof.
  unfold value_start. intros H.
  repeat (apply orb_true_iff in H as [H|H]);
    apply Ascii.eqb_eq in H; subst c; repeat split; reflexivity.
Qed.

Lemma fold_parse_value_S n s :
  parse_value (S n) s =
  match skip_ws s with
      | EmptyString => None
      | String c r =>
          if Ascii.eqb c dquote then
            match parse_string_body r with
            | Some (str, r') => Some (JString str, r')
            | None => None
            end
          else if Ascii.eqb c "[" then
            match expect "]" r with
            | Some r' => Some (JArray [], r')
            | None =>
                match parse_elements n r with
                | Some (items, r') => Some (JArray items, r')
                | None => None
                end
            end
          else if Ascii.eqb c "{" then
            match expect "}" r with
            | Some r' => Some (JObject [], r')
            | None =>
                match parse_members n r with
                | Some (members, r') => Some (JObject members, r')
                | None => None
                end
            end
          else if Ascii.eqb c "n" then literal "null" JNull (String c r)
          else if Ascii.eqb c "t" then literal "true" (JBool true) (String c r)
          else if Ascii.eqb c "f" then literal "false" (JBool false) (String c r)
          else
            match parse_number (String c r) with
            | Some (lexeme, r') => Some (JNumber lexeme, r')
            | None => None
            end
      end.
Proof. reflexivity. Qed.

Lemma fold_parse_elements_S n s :
  parse_elements (S n) s =
      match parse_value n s with
      | Some (v, r) =>
          match expect "," r with
          | Some r' =>
              match parse_elements n r' with
              | Some (vs, r'') => Some (v :: vs, r'')
              | None => None
              end
          | None =>
              match expect "]" r with
              | Some r' => Some ([v], r')
              | None => None
              end
          end
      | None => None
      end.
Proof. reflexivity. Qed.

Lemma fold_parse_members_S n s :
  parse_members (S n) s =
      match parse_key s with
      | Some (k, r) =>
          match parse_value n r with
          | Some (v, r1) =>
              match expect "," r1 with
              | Some r2 =>
                  match parse_members n r2 with
                  | Some (ms, r3) => Some ((k, v) :: ms, r3)
                  | None => None
                  end
              | None =>
                  match expect "}" r1 with
                  | Some r2 => Some ([(k, v)], r2)
                  | None => None
                  end
              end
          | None => None
          end
      | None => None
      end.
Proof. reflexivity. Qed.

Lemma parse_key_quote (w k rest : string) :
  all_ws w = true ->
  parse_key (w ++ quote k ++ ": " ++ rest) = Some (k, " " ++ rest).
Proof.
  intros Hw. unfold parse_key.
  rewrite quote_app, expect_hit by (assumption || reflexivity).
  rewrite parse_escape.
  change (": " ++ rest) with ("" ++ String ":" (" " ++ rest)).
  rewrite expect_hit by reflexivity. reflexivity.
Qed.

Lemma all_ws_inner indent : all_ws indent = true -> all_ws (nl ++ indent ++ "  ") = true.
Proof.
  intros H. apply all_ws_app; [reflexivity|]. apply all_ws_app; [assumption|reflexivity].
Qed.

Lemma all_ws_deeper indent : all_ws indent = true -> all_ws (indent ++ "  ") = true.
Proof. intros H. apply all_ws_app; [assumption|reflexivity]. Qed.

Lemma all_ws_close indent : all_ws indent = true -> all_ws (nl ++ indent) = true.
Proof. intros H. apply all_ws_app; [reflexivity|assumption]. Qed.

Ltac string_norm :=
  unfold nl;
  repeat first [ rewrite !string_app_assoc | progress cbn [append] ].

Ltac side :=
  first [ assumption | reflexivity | lia
        | apply all_ws_deeper; assumption
        | apply all_ws_inner; assumption
        | apply all_ws_close; assumption ].

Lemma read_elements (indent rest : string) (xs : list value) :
  all_ws indent = true ->
  Forall reads_back xs ->
  forall x w n,
    reads_back x -> number_free x = true -> forallb number_free xs = true ->
    all_ws w = true ->
    S (size x + fold_right (fun y acc => S (size y + acc)) 0 xs) <= n ->
    parse_elements n
      (w ++ stringify_value (indent ++ "  ") x
         ++ more_items (stringify_value (indent ++ "  ")) (indent ++ "  ") xs
         ++ nl ++ indent ++ "]" ++ rest)
    = Some (x :: xs, rest).
Proof.
  intros Hind Hall. induction Hall as [|y l Hy Hl IH]; intros x w n Hx Nx Nxs Hw Hn.
  - destruct n as [|n]; [lia|]. rewrite fold_parse_elements_S.
    simpl in Hn. rewrite Hx by side. simpl more_items.
    change ("" ++ nl ++ indent ++ "]" ++ rest) with (nl ++ indent ++ "]" ++ rest).
    replace (nl ++ indent ++ "]" ++ rest) with ((nl ++ indent) ++ String "]" rest)
      by (now rewrite string_app_assoc).
    rewrite expect_miss, expect_hit by side. reflexivity.
  - destruct n as [|n]; [lia|]. rewrite fold_parse_elements_S.
    simpl in Hn, Nxs. apply andb_true_iff in Nxs as [Ny Nl].
    rewrite Hx by side.
    cbn [more_items].
    replace (("," ++ nl ++ (indent ++ "  ") ++ stringify_value (indent ++ "  ") y
              ++ more_items (stringify_value (indent ++ "  ")) (indent ++ "  ") l)
             ++ nl ++ indent ++ "]" ++ rest)
      with ("" ++ String ","
              ((nl ++ indent ++ "  ") ++ stringify_value (indent ++ "  ") y
               ++ more_items (stringify_value (indent ++ "  ")) (indent ++ "  ") l
               ++ nl ++ indent ++ "]" ++ rest)).
    2:{ string_norm. reflexivity. }
    rewrite expect_hit by reflexivity.
    rewrite IH by side. reflexivity.
Qed.


Lemma read_members (indent rest : string) (xs : list (string * value)) :
  all_ws indent = true ->
  Forall (fun kv => reads_back (snd kv)) xs ->
  forall k x w n,
    reads_back x -> number_free x = true ->
    forallb (fun kv : string * value => number_free (snd kv)) xs = true ->
    all_ws w = true ->
    S (size x + fold_right (fun (kv : string * value) acc => S (size (snd kv) + acc)) 0 xs) <= n ->
    parse_members n
      (w ++ quote k ++ ": " ++ stringify_value (indent ++ "  ") x
         ++ more_items (member_text (stringify_value (indent ++ "  "))) (indent ++ "  ") xs
         ++ nl ++ indent ++ "}" ++ rest)
    = Some ((k, x) :: xs, rest).
Proof.
  intros Hind Hall.
  induction Hall as [|[k' y] l Hy Hl IH]; intros k x w n Hx Nx Nxs Hw Hn.
  - destruct n as [|n]; [lia|]. rewrite fold_parse_members_S.
    simpl in Hn. rewrite parse_key_quote by side.
    rewrite Hx by side. simpl more_items.
    change ("" ++ nl ++ indent ++ "}" ++ rest) with (nl ++ indent ++ "}" ++ rest).
    replace (nl ++ indent ++ "}" ++ rest) with ((nl ++ indent) ++ String "}" rest)
      by (now rewrite string_app_assoc).
    rewrite expect_miss, expect_hit by side. reflexivity.
  - destruct n as [|n]; [lia|]. rewrite fold_parse_members_S.
    simpl in Hn, Nxs, Hy. apply andb_true_iff in Nxs as [Ny Nl].
    rewrite parse_key_quote by side.
    rewrite Hx by side.
    cbn [more_items member_text].
    replace (("," ++ nl ++ (indent ++ "  ")
              ++ (quote k' ++ ": " ++ stringify_value (indent ++ "  ") y)
              ++ more_items (member_text (stringify_value (indent ++ "  "))) (indent ++ "  ") l)
             ++ nl ++ indent ++ "}" ++ rest)
      with ("" ++ String ","
              ((nl ++ indent ++ "  ") ++ quote k' ++ ": "
               ++ stringify_value (indent ++ "  ") y
               ++ more_items (member_text (stringify_value (indent ++ "  "))) (indent ++ "  ") l
               ++ nl ++ indent ++ "}" ++ rest)).
    2:{ string_norm. reflexivity. }
    rewrite expect_hit by side.
    rewrite IH by side. reflexivity.
Qed.

Lemma literal_here (word rest : string) (v : value) :
  literal word v (word ++ rest) = Some (v, rest).
Proof.
  unfold literal.
  assert (Hp : forall a b, String.prefix a (a ++ b) = true).
  { induction a as [|c a IH]; intros b; simpl.
    - now destruct b.
    - rewrite IH. now destruct (ascii_dec c c). }
  assert (Hd : forall a b, Js.drop (String.length a) (a ++ b) = b).
  { induction a as [|c a IH]; intros b; simpl; auto. }
  now rewrite Hp, Hd.
Qed.

Theorem parse_stringify_value (v : value) : reads_back v.
Proof.
  induction v as [ | b | l | s | items IH | members IH ] using value_nested_ind;
    intros NF indent w rest n Hind Hw Hn;
    (destruct n as [|n]; [simpl in Hn; lia|]); rewrite fold_parse_value_S.
  - simpl stringify_value. rewrite skip_ws_app by side.
    change (skip_ws ("null" ++ rest)) with (String "n" ("ull" ++ rest)).
    cbn [Ascii.eqb Bool.eqb dquote ascii_of_nat ascii_of_pos]. cbn.
    apply (literal_here "null").
  - destruct b; simpl stringify_value; rewrite skip_ws_app by side.
    + change (skip_ws ("true" ++ rest)) with (String "t" ("rue" ++ rest)).
      cbn. apply (literal_here "true").
    + change (skip_ws ("false" ++ rest)) with (String "f" ("alse" ++ rest)).
      cbn. apply (literal_here "false").
  - discriminate.
  - simpl stringify_value. rewrite skip_ws_app by side.
    rewrite quote_app, skip_ws_stop by reflexivity.
    rewrite Ascii.eqb_refl, parse_escape. reflexivity.
  - destruct items as [|x xs].
    + simpl stringify_value. rewrite skip_ws_app by side.
      change (skip_ws ("[]" ++ rest)) with (String "[" (String "]" rest)).
      cbn -[expect].
      rewrite expect_here by side. reflexivity.
    + cbn [stringify_value]. rewrite skip_ws_app by side.
      inversion IH as [|? ? Hx Hxs]; subst.
      simpl in NF. apply andb_true_iff in NF as [Nx Nxs].
      cbn [size] in Hn.
      replace (("[" ++ nl ++ (indent ++ "  ") ++ stringify_value (indent ++ "  ") x
                ++ more_items (stringify_value (indent ++ "  ")) (indent ++ "  ") xs
                ++ nl ++ indent ++ "]") ++ rest)
        with (String "["
                ((nl ++ indent ++ "  ") ++ stringify_value (indent ++ "  ") x
                 ++ more_items (stringify_value (indent ++ "  ")) (indent ++ "  ") xs
                 ++ nl ++ indent ++ "]" ++ rest)).
      2:{ string_norm. reflexivity. }
      rewrite skip_ws_stop by reflexivity.
      cbn -[expect parse_elements stringify_value more_items append nl quote].
      destruct (stringify_head (indent ++ "  ")
                  (more_items (stringify_value (indent ++ "  ")) (indent ++ "  ") xs
                   ++ nl ++ indent ++ "]" ++ rest) x Nx) as (c & t & Hc & Hs).
      apply value_start_facts in Hs as (Hs1 & Hs2 & Hs3 & Hs4).
      rewrite Hc. rewrite expect_miss by side. rewrite <- Hc.
      rewrite read_elements by (simpl in Hn; side). reflexivity.
  - destruct members as [|[k x] xs].
    + simpl stringify_value. rewrite skip_ws_app by side.
      change (skip_ws ("{}" ++ rest)) with (String "{" (String "}" rest)).
      cbn -[expect].
      rewrite expect_here by side. reflexivity.
    + cbn [stringify_value]. rewrite skip_ws_app by side.
      inversion IH as [|? ? Hx Hxs]; subst.
      simpl in NF. apply andb_true_iff in NF as [Nx Nxs].
      cbn [size] in Hn. simpl in Hx.
      replace (("{" ++ nl ++ (indent ++ "  ") ++ quote k ++ ": "
                ++ stringify_value (indent ++ "  ") x
                ++ more_items (member_text (stringify_value (indent ++ "  "))) (indent ++ "  ") xs
                ++ nl ++ indent ++ "}") ++ rest)
        with (String "{"
                ((nl ++ indent ++ "  ") ++ quote k ++ ": "
                 ++ stringify_value (indent ++ "  ") x
                 ++ more_items (member_text (stringify_value (indent ++ "  "))) (indent ++ "  ") xs
                 ++ nl ++ indent ++ "}" ++ rest)).
      2:{ string_norm. reflexivity. }
      rewrite skip_ws_stop by reflexivity.
      cbn -[expect parse_members stringify_value more_items append nl quote member_text].
      rewrite quote_app. rewrite expect_miss; try side. rewrite <- quote_app.
      rewrite read_members by (simpl in Hn; side). reflexivity.
Qed.


Lemma more_items_length {A} (item : A -> string) (sz : A -> nat)
      (inner : string) (xs : list A) :
  Forall (fun x => sz x <= String.length (item x)) xs ->
  fold_right (fun x acc => S (sz x + acc)) 0 xs
  <= String.length (more_items item inner xs).
Proof.
  induction 1 as [|x l Hx Hl IH]; [apply Nat.le_0_l|].
  change (more_items item inner (x :: l))
    with ("," ++ nl ++ inner ++ item x ++ more_items item inner l).
  cbn [fold_right]. rewrite !string_length_app.
  change (String.length ",") with 1. lia.
Qed.

Lemma Forall_number_free {A} (f : A -> value) (P : value -> Prop) (xs : list A) :
  Forall (fun x => number_free (f x) = true -> P (f x)) xs ->
  forallb (fun x => number_free (f x)) xs = true ->
  Forall (fun x => P (f x)) xs.
Proof.
  induction 1 as [|x l Hx Hl IH]; simpl; intros H; constructor;
    apply andb_true_iff in H as [H1 H2]; auto.
Qed.

Lemma size_le_length (v : value) :
  number_free v = true ->
  forall indent, size v <= String.length (stringify_value indent v).
Proof.
  induction v as [ | b | l | s | items IH | members IH ] using value_nested_ind;
    intros NF indent.
  - simpl. lia.
  - destruct b; simpl; lia.
  - discriminate.
  - simpl. lia.
  - destruct items as [|x xs]; [simpl; lia|].
    simpl in NF. apply andb_true_iff in NF as [Nx Nxs].
    inversion IH as [|? ? Hx Hxs]; subst.
    apply (Forall_number_free (fun v => v)
             (fun v => forall indent, size v <= String.length (stringify_value indent v)))
      in Hxs; [|exact Nxs].
    cbn [stringify_value size fold_right].
    rewrite !string_length_app.
    pose proof (Hx Nx (indent ++ "  ")).
    pose proof (more_items_length (stringify_value (indent ++ "  ")) size
                  (indent ++ "  ") xs) as Hm.
    change (String.length "[") with 1.
    assert (Forall (fun x0 => size x0 <= String.length (stringify_value (indent ++ "  ") x0)) xs)
      by (eapply Forall_impl; [|exact Hxs]; intros a Ha; apply Ha).
    specialize (Hm H0). change (String.length nl) with 1. lia.
  - destruct members as [|[k x] xs]; [simpl; lia|].
    simpl in NF. apply andb_true_iff in NF as [Nx Nxs].
    inversion IH as [|? ? Hx Hxs]; subst. simpl in Hx.
    apply (Forall_number_free snd
             (fun v => forall indent, size v <= String.length (stringify_value indent v)))
      in Hxs; [|exact Nxs].
    cbn [stringify_value size fold_right snd].
    rewrite !string_length_app.
    pose proof (Hx Nx (indent ++ "  ")).
    pose proof (more_items_length (member_text (stringify_value (indent ++ "  ")))
                  (fun kv => size (snd kv)) (indent ++ "  ") xs) as Hm.
    change (String.length "{") with 1.
    assert (Forall (fun kv : string * value =>
                      size (snd kv)
                      <= String.length (member_text (stringify_value (indent ++ "  ")) kv)) xs).
    { eapply Forall_impl; [|exact Hxs]. intros [k' y] Ha.
      unfold member_text. cbn [snd] in *.
      rewrite !string_length_app. specialize (Ha (indent ++ "  ")). lia. }
    specialize (Hm H0). change (String.length nl) with 1. lia.
Qed.

Theorem parse_text_stringify (v : value) :
  number_free v = true -> parse_text (stringify_value "" v) = Some v.
Proof.
  intros NF. unfold parse_text.
  pose proof (parse_stringify_value v NF "" "" ""
                (2 * String.length (stringify_value "" v) + 2)) as H.
  simpl append in H. rewrite string_app_nil_r in H.
  rewrite H; [reflexivity | reflexivity | reflexivity |].
  pose proof (size_le_length v NF ""). lia.
Qed.

Lemma role_of_role_name (r : Role) : role_of_name (role_name r) = Some r.
Proof. destruct r; reflexivity. Qed.

Lemma message_of_message_value (m : StoredMessage) :
  message_of_value (message_value m) = Some m.
Proof.
  destruct m as [r c t]. unfold message_value, message_of_value. simpl.
  now rewrite role_of_role_name.
Qed.

Lemma messages_of_message_values (ms : list StoredMessage) :
  messages_of_values (map message_value ms) = Some ms.
Proof.
  induction ms as [|m ms IH]; [reflexivity|].
  cbn [map messages_of_values]. now rewrite message_of_message_value, IH.
Qed.

Lemma history_of_history_value (h : MessageHistory.t) :
  history_of_value (history_value h) = Some h.
Proof.
  destruct h as [i c u ms]. unfold history_value, history_of_value. simpl.
  now rewrite messages_of_message_values.
Qed.

Lemma history_value_number_free (h : MessageHistory.t) :
  number_free (history_value h) = true.
Proof.
  destruct h as [i c u ms]. simpl.
  induction ms as [|m ms IH]; [reflexivity|]. simpl. exact IH.
Qed.

Theorem parse_stringify (h : MessageHistory.t) : parse (stringify h) = Some h.
Proof.
  unfold parse, stringify.
  rewrite parse_text_stringify by apply history_value_number_free.
  apply history_of_history_value.
Qed.

End JsonFacts.

(** ** Running the operations of the store *)

Lemma bind_returned {A B} (m : M A) (k : A -> M B) w a w' :
  m w = (Returned a, w') -> bind m k w = k a w'.
Proof. unfold bind. now intros ->. Qed.

Ltac fs_step :=
  unfold bind, ret, throw, when, try_catch, existsSync, mkdirSync, readFileSync,
    writeFileSync, readdirSync, unlinkSync, new_Date_toISOString, log;
  cbn.

Lemma ensureDirectories_run w :
  ensureDirectories w = (Returned tt, after_ensure w).
Proof.
  destruct w as [[[a [l|]]|] ck tk tr];
    unfold ensureDirectories, after_ensure, bind, when, existsSync, mkdirSync,
      log, ret, ensured;
    cbn; rewrite <- ?app_assoc, ?app_nil_r; reflexivity.
Qed.

Lemma after_ensure_idem w : after_ensure (after_ensure w) = after_ensure w.
Proof. unfold after_ensure. simpl. now rewrite app_nil_r. Qed.



Lemma lookup_store_same (name data : string) (l : Listing) :
  lookup name (store name data l) = Some data.
Proof.
  induction l as [|[n c] l IH]; simpl.
  - now rewrite String.eqb_refl.
  - destruct (String.eqb n name) eqn:E; simpl; rewrite E; auto.
Qed.

Section StoreFacts.

Variable JSON_parse : string -> option MessageHistory.t.
Variable JSON_stringify : MessageHistory.t -> string.
Variable Date_getTime : string -> option Z.

Lemma loadActiveMessage_run w :
  loadActiveMessage JSON_parse w
  = (Returned (active_record JSON_parse (disk w)), after_ensure w).
Proof.
  unfold loadActiveMessage.
  rewrite (bind_returned _ _ _ _ _ (ensureDirectories_run w)).
  unfold active_record.
  destruct w as [d ck tk tr]. unfold bind, existsSync, after_ensure. cbn.
  destruct (activeFile d) as [content|] eqn:Ha; cbn; [|reflexivity].
  unfold try_catch, bind, readFileSync, JSON_parse_or_throw. cbn. rewrite Ha.
  destruct (JSON_parse content); reflexivity.
Qed.

Lemma saveActiveMessage_run history w :
  let h' := MessageHistory.set_updated history (clock w (tick w)) in
  saveActiveMessage JSON_stringify history w =
  (Returned h',
   mkWorld (Some (mkCxDir (Some (JSON_stringify h'))
                          (Some (historyFiles (disk w)))))
           (clock w) (S (tick w))
           (trace w ++ mkdirs (disk w)
              ++ [write ACTIVE_MESSAGE_PATH (JSON_stringify h')])).
Proof.
  unfold saveActiveMessage.
  rewrite (bind_returned _ _ _ _ _ (ensureDirectories_run w)).
  destruct w as [d ck tk tr]. unfold after_ensure. fs_step.
  now rewrite <- ?app_assoc.
Qed.

Lemma archiveToHistory_run history w :
  archiveToHistory JSON_stringify history w =
  (Returned tt,
   mkWorld (Some (mkCxDir (activeFile (disk w))
                          (Some (store (MessageHistory.id history ++ ".json")
                                       (JSON_stringify history)
                                       (historyFiles (disk w))))))
           (clock w) (tick w)
           (trace w ++ mkdirs (disk w)
              ++ [write (HistoryFile (MessageHistory.id history ++ ".json"))
                        (JSON_stringify history)])).
Proof.
  unfold archiveToHistory.
  rewrite (bind_returned _ _ _ _ _ (ensureDirectories_run w)).
  destruct w as [d ck tk tr]. unfold after_ensure. fs_step.
  now rewrite <- ?app_assoc.
Qed.

Lemma archive_current_run cur w :
  archive_current JSON_stringify cur (after_ensure w) =
  (Returned tt,
   mkWorld (Some (mkCxDir (activeFile (disk w))
                          (Some (archive_files JSON_stringify cur
                                               (historyFiles (disk w))))))
           (clock w) (tick w)
           (trace w ++ mkdirs (disk w) ++ archive_ops JSON_stringify cur)).
Proof.
  unfold archive_current, archive_ops, archive_files, nonempty.
  destruct cur as [c|].
  - destruct (0 <? List.length (MessageHistory.messages c))%nat; unfold when.
    + rewrite archiveToHistory_run. unfold after_ensure. cbn.
      now rewrite <- app_assoc.
    + unfold ret, after_ensure, ensured. now rewrite app_nil_r.
  - unfold ret, after_ensure, ensured. now rewrite app_nil_r.
Qed.

Lemma clearActiveMessage_run w :
  let cur := active_record JSON_parse (disk w) in
  let files := archive_files JSON_stringify cur (historyFiles (disk w)) in
  clearActiveMessage JSON_parse JSON_stringify w =
  match activeFile (disk w) with
  | Some _ =>
      (Returned true,
       mkWorld (Some (mkCxDir None (Some files))) (clock w) (tick w)
               (trace w ++ mkdirs (disk w) ++ archive_ops JSON_stringify cur
                  ++ [unlink ACTIVE_MESSAGE_PATH]))
  | None =>
      (Returned false,
       mkWorld (Some (mkCxDir None (Some files))) (clock w) (tick w)
               (trace w ++ mkdirs (disk w) ++ archive_ops JSON_stringify cur))
  end.
Proof.
  cbv zeta. unfold clearActiveMessage.
  rewrite (bind_returned _ _ _ _ _ (loadActiveMessage_run w)).
  rewrite (bind_returned _ _ _ _ _ (archive_current_run _ w)).
  fs_step. destruct (activeFile (disk w)); cbn; [|reflexivity].
  now rewrite <- !app_assoc.
Qed.

Lemma history_loop_run (l : Listing) (w : World) (files : list string) :
  disk w = Some (mkCxDir (activeFile (disk w)) (Some l)) ->
  forall acc,
    for_of files
      (fun records file =>
         try_catch
           (content <- readFileSync (HistoryFile file) ;;
            history <- JSON_parse_or_throw JSON_parse content ;;
            ret (records ++ [record_of history]))
           (ret records))
      acc w
    = (Returned (acc ++ flat_map (record_of_file JSON_parse l) files), w).
Proof.
  intros Hd. induction files as [|f files IH]; intros acc.
  - cbn. unfold ret. now rewrite app_nil_r.
  - cbn [for_of flat_map]. unfold record_of_file at 1.
    unfold bind at 1, try_catch, bind, readFileSync, JSON_parse_or_throw.
    rewrite Hd. cbn.
    destruct (lookup f l) as [content|]; cbn.
    + destruct (JSON_parse content) as [h|]; cbn.
      * rewrite IH. now rewrite <- app_assoc.
      * rewrite IH. reflexivity.
    + rewrite IH. reflexivity.
Qed.

Lemma listHistory_run w :
  listHistory JSON_parse Date_getTime w =
  (Returned (Array_sort (by_updated_desc Date_getTime)
                        (records_of JSON_parse (historyFiles (disk w)))),
   after_ensure w).
Proof.
  unfold listHistory.
  rewrite (bind_returned _ _ _ _ _ (ensureDirectories_run w)).
  unfold bind at 1. unfold existsSync at 1.
  cbn [after_ensure disk ensured history negb].
  unfold bind at 1. unfold readdirSync at 1.
  cbn [after_ensure disk ensured history].
  rewrite (bind_returned _ _ _ _ _
             (history_loop_run (historyFiles (disk w)) (after_ensure w) _
                               eq_refl [])).
  reflexivity.
Qed.

Lemma restoreHistory_run guid w :
  let l := historyFiles (disk w) in
  restoreHistory JSON_parse JSON_stringify guid w =
  match matching guid l with
  | [] => (Returned not_found, after_ensure w)
  | [f] =>
      match lookup f l with
      | Some content =>
          match JSON_parse content with
          | Some h =>
              let cur := active_record JSON_parse (disk w) in
              let h' := MessageHistory.set_updated h (clock w (tick w)) in
              (Returned success,
               mkWorld (Some (mkCxDir (Some (JSON_stringify h'))
                                      (Some (archive_files JSON_stringify cur l))))
                       (clock w) (S (tick w))
                       (trace w ++ mkdirs (disk w)
                          ++ archive_ops JSON_stringify cur
                          ++ [write ACTIVE_MESSAGE_PATH (JSON_stringify h')]))
          | None => (Thrown SyntaxError, after_ensure w)
          end
      | None => (Thrown ENOENT, after_ensure w)
      end
  | files =>
      (Returned (ambiguous (map (fun f => Js.replace ".json" "" f) files)),
       after_ensure w)
  end.
Proof.
  cbv zeta. unfold restoreHistory.
  rewrite (bind_returned _ _ _ _ _ (ensureDirectories_run w)).
  unfold bind at 1. unfold readdirSync at 1.
  cbn [after_ensure disk ensured history].
  fold (matching guid (historyFiles (disk w))).
  destruct (matching guid (historyFiles (disk w))) as [|f [|g rest]];
    [reflexivity| |reflexivity].
  cbn [List.length Nat.eqb Nat.ltb Nat.leb nth].
  unfold bind at 1. unfold readFileSync at 1.
  cbn [after_ensure disk ensured historyFiles history].
  destruct (lookup f (historyFiles (disk w))) as [content|]; [|reflexivity].
  unfold bind at 1. unfold JSON_parse_or_throw at 1.
  destruct (JSON_parse content) as [h|]; [|reflexivity].
  unfold ret at 1.
  fold (after_ensure w).
  rewrite (bind_returned _ _ _ _ _ (loadActiveMessage_run (after_ensure w))).
  rewrite after_ensure_idem.
  change (active_record JSON_parse (disk (after_ensure w)))
    with (active_record JSON_parse (disk w)).
  rewrite (bind_returned _ _ _ _ _ (archive_current_run _ w)).
  unfold bind at 1. rewrite saveActiveMessage_run. cbn.
  unfold ret. now rewrite <- !app_assoc.
Qed.

End StoreFacts.

(** ** Lists, sorting, previews *)

Lemma filter_unique {A} (p : A -> bool) (x : A) (l : list A) :
  NoDup l -> In x l -> p x = true ->
  (forall y, In y l -> y <> x -> p y = false) ->
  filter p l = [x].
Proof.
  induction l as [|a l IH]; intros Hnd Hin Hx Hothers; [destruct Hin|].
  inversion Hnd as [|? ? Hnotin Hnd']; subst.
  destruct Hin as [->|Hin].
  - simpl. rewrite Hx. f_equal.
    assert (Hnone : forall y, In y l -> p y = false).
    { intros y Hy. apply Hothers; [now right|]. intros ->. contradiction. }
    clear -Hnone. induction l as [|b l IH]; [reflexivity|].
    simpl. rewrite (Hnone b) by now left.
    apply IH. intros y Hy. apply Hnone. now right.
  - simpl. rewrite (Hothers a) by (now left || (intros ->; contradiction)).
    apply IH; auto. intros y Hy Hne. apply Hothers; [now right|assumption].
Qed.




Lemma sort_insert_perm {A} (cmp : A -> A -> Z) (x : A) (l : list A) :
  Permutation (sort_insert cmp x l) (x :: l).
Proof.
  induction l as [|y l IH]; simpl; [reflexivity|].
  destruct (cmp x y <=? 0)%Z; [reflexivity|].
  rewrite IH. apply perm_swap.
Qed.

Lemma Array_sort_perm {A} (cmp : A -> A -> Z) (l : list A) :
  Permutation (Array_sort cmp l) l.
Proof.
  induction l as [|x l IH]; simpl; [reflexivity|].
  rewrite sort_insert_perm. now constructor.
Qed.

Section SortedByKey.

Context {A : Type} (cmp : A -> A -> Z) (key : A -> Z) (ok : A -> Prop).

(** On the elements that are [ok], [cmp] compares keys, larger first. *)
Hypothesis cmp_key :
  forall a b, ok a -> ok b -> ((cmp a b <= 0)%Z <-> (key b <= key a)%Z).



End SortedByKey.







Lemma ops_since_app (w w' : World) (ops : list FsOp) :
  trace w' = trace w ++ ops -> ops_since w w' = ops.
Proof.
  unfold ops_since. intros ->.
  rewrite skipn_app, skipn_all, Nat.sub_diag. reflexivity.
Qed.

Lemma write_then_rename_direct (target : File) (data : string) (dirs : list FsOp) :
  Forall (fun op => Stated.is_mkdir op = true) dirs ->
  Stated.write_then_rename target (dirs ++ [write target data]) = false.
Proof.
  intros H. unfold Stated.write_then_rename.
  rewrite filter_app.
  replace (filter (fun op => negb (Stated.is_mkdir op)) dirs) with (@nil FsOp).
  - reflexivity.
  - induction H as [|op l Hop Hl IH]; [reflexivity|].
    simpl. now rewrite Hop.
Qed.

Lemma mkdirs_are_mkdir (d : Disk) :
  Forall (fun op => Stated.is_mkdir op = true) (mkdirs d).
Proof. destruct d as [[a [l|]]|]; repeat constructor. Qed.

(** * The claims about the conversation store *)

Section Claims.

Variable JSON_parse : string -> option MessageHistory.t.
Variable JSON_stringify : MessageHistory.t -> string.
Variable Date_getTime : string -> option Z.



(** C2, as amended.  [saveActiveMessage] and [archiveToHistory] write the
    whole serialised record with one [writeFileSync] on the target path
    itself, after the [mkdirSync] calls of [ensureDirectories]; no
    temporary path and no rename is involved. *)
Theorem records_are_written_in_place (h : MessageHistory.t) (w : World) :
  let stamped := MessageHistory.set_updated h (clock w (tick w)) in
  let archive := HistoryFile (MessageHistory.id h ++ ".json") in
  (ops_since w (snd (saveActiveMessage JSON_stringify h w))
   = mkdirs (disk w) ++ [write ACTIVE_MESSAGE_PATH (JSON_stringify stamped)]
   /\ Stated.write_then_rename ACTIVE_MESSAGE_PATH
        (ops_since w (snd (saveActiveMessage JSON_stringify h w))) = false)
  /\ (ops_since w (snd (archiveToHistory JSON_stringify h w))
      = mkdirs (disk w) ++ [write archive (JSON_stringify h)]
      /\ Stated.write_then_rename archive
           (ops_since w (snd (archiveToHistory JSON_stringify h w))) = false).
Proof.
  cbv zeta. rewrite saveActiveMessage_run, archiveToHistory_run. cbv zeta.
  cbn [snd].
  split.
  - erewrite ops_since_app by reflexivity.
    split; [reflexivity|]. apply write_then_rename_direct, mkdirs_are_mkdir.
  - erewrite ops_since_app by reflexivity.
    split; [reflexivity|]. apply write_then_rename_direct, mkdirs_are_mkdir.
Qed.




(** C6, as amended.  With a codec that reads back what it prints,
    [saveActiveMessage] stamps the record's [updated] with the time of the
    write, in the caller's record too, and [loadActiveMessage] then yields
    that stamped record: identifier, [created] and the message list are
    those passed in, empty list included, and [updated] is the time of the
    write. *)
Theorem save_then_load (h : MessageHistory.t) (w : World) :
  (forall x, JSON_parse (JSON_stringify x) = Some x) ->
  exists h' w1 w2,
    saveActiveMessage JSON_stringify h w = (Returned h', w1)
    /\ loadActiveMessage JSON_parse w1 = (Returned (Some h'), w2)
    /\ MessageHistory.id h' = MessageHistory.id h
    /\ MessageHistory.created h' = MessageHistory.created h
    /\ MessageHistory.messages h' = MessageHistory.messages h
    /\ MessageHistory.updated h' = clock w (tick w).
Proof.
  intros Hrt. eexists. eexists. eexists.
  split; [apply saveActiveMessage_run|].
  split.
  - rewrite loadActiveMessage_run. cbn. unfold active_record. cbn.
    now rewrite Hrt.
  - repeat split.
Qed.

(** C9.  When the active file parses to a conversation with at least one
    message, [clearActiveMessage] writes that conversation to
    [history/<id>.json] and then deletes the active file; and
    [restoreHistory], when it succeeds, writes it to [history/<id>.json]
    and then overwrites the active file, and otherwise leaves the active
    file and the history as they were. *)
Theorem active_conversation_is_archived
        (content : string) (cur : MessageHistory.t) (guid : string) (w : World) :
  let archive := (MessageHistory.id cur ++ ".json")%string in
  activeFile (disk w) = Some content ->
  JSON_parse content = Some cur ->
  MessageHistory.messages cur <> [] ->
  (exists w',
      clearActiveMessage JSON_parse JSON_stringify w = (Returned true, w')
      /\ lookup archive (historyFiles (disk w')) = Some (JSON_stringify cur)
      /\ activeFile (disk w') = None
      /\ ops_since w w'
         = mkdirs (disk w)
             ++ [write (HistoryFile archive) (JSON_stringify cur);
                 unlink ACTIVE_MESSAGE_PATH])
  /\ (exists result w',
         restoreHistory JSON_parse JSON_stringify guid w = (result, w')
         /\ match result with
            | Returned success =>
                lookup archive (historyFiles (disk w')) = Some (JSON_stringify cur)
                /\ exists data,
                    activeFile (disk w') = Some data
                    /\ ops_since w w'
                       = mkdirs (disk w)
                           ++ [write (HistoryFile archive) (JSON_stringify cur);
                               write ACTIVE_MESSAGE_PATH data]
            | _ =>
                activeFile (disk w') = Some content
                /\ historyFiles (disk w') = historyFiles (disk w)
            end).
Proof.
  cbv zeta. intros Ha Hp Hne.
  assert (Hcur : active_record JSON_parse (disk w) = Some cur).
  { unfold active_record. now rewrite Ha. }
  assert (Hn : nonempty cur = true).
  { unfold nonempty.
    destruct (MessageHistory.messages cur); [congruence|reflexivity]. }
  split.
  - rewrite clearActiveMessage_run. cbv zeta. rewrite Ha, Hcur.
    unfold archive_files, archive_ops. rewrite Hn.
    eexists. split; [reflexivity|]. cbn.
    split; [apply lookup_store_same|]. split; [reflexivity|].
    now apply ops_since_app.
  - eexists. eexists. split; [apply surjective_pairing|].
    rewrite restoreHistory_run. cbv zeta. rewrite Hcur.
    unfold archive_files, archive_ops. rewrite Hn.
    destruct (matching guid (historyFiles (disk w))) as [|f [|g rest]]; cbn;
      try (split; [assumption|reflexivity]).
    destruct (lookup f (historyFiles (disk w))) as [c|]; cbn;
      try (split; [assumption|reflexivity]).
    destruct (JSON_parse c) as [h|]; cbn;
      try (split; [assumption|reflexivity]).
    split; [apply lookup_store_same|].
    eexists. split; [reflexivity|]. now apply ops_since_app.
Qed.


End Claims.

(** ** The claims at sample data, with the JSON and ISO-date instances *)



(** C2 as stated fails: the only call of [saveActiveMessage], and of
    [archiveToHistory], on a disk that has its directories is a write on
    the target itself; it is not a write elsewhere followed by a rename. *)
Lemma no_write_then_rename :
  let w := Sample.world None [] in
  ops_since w (snd (saveActiveMessage Json.stringify Sample.talk w))
  = [write ACTIVE_MESSAGE_PATH
           (Json.stringify
              (MessageHistory.set_updated Sample.talk (Sample.stamp 0)))]
  /\ Stated.write_then_rename ACTIVE_MESSAGE_PATH
       (ops_since w (snd (saveActiveMessage Json.stringify Sample.talk w)))
     = false
  /\ ops_since w (snd (archiveToHistory Json.stringify Sample.talk w))
     = [write (HistoryFile "3f2a9c1e.json") (Json.stringify Sample.talk)]
  /\ Stated.write_then_rename (HistoryFile "3f2a9c1e.json")
       (ops_since w (snd (archiveToHistory Json.stringify Sample.talk w)))
     = false.
Proof. vm_compute. repeat split. Qed.




Lemma save_then_load_witness :
  exists h' w1 w2,
    saveActiveMessage Json.stringify Sample.talk (Sample.world None [])
    = (Returned h', w1)
    /\ loadActiveMessage Json.parse w1 = (Returned (Some h'), w2)
    /\ MessageHistory.id h' = MessageHistory.id Sample.talk
    /\ MessageHistory.created h' = MessageHistory.created Sample.talk
    /\ MessageHistory.messages h' = MessageHistory.messages Sample.talk
    /\ MessageHistory.updated h' = Sample.stamp 0.
Proof.
  apply (save_then_load Json.parse Json.stringify Sample.talk
           (Sample.world None [])).
  exact JsonFacts.parse_stringify.
Defined.

(** C6 as stated fails: the record read back is not the record that was
    passed in, its [updated] is the time of the write. *)
Lemma save_then_load_changes_updated :
  let w := Sample.world None [] in
  exists h',
    fst (loadActiveMessage Json.parse
           (snd (saveActiveMessage Json.stringify Sample.talk w)))
    = Returned (Some h')
    /\ h' <> Sample.talk
    /\ MessageHistory.updated h' = "2025-06-01T12:00:00.000Z"
    /\ MessageHistory.updated Sample.talk = "2025-01-01T10:05:00.000Z".
Proof.
  eexists. split; [vm_compute; reflexivity|].
  split; [discriminate|]. split; reflexivity.
Qed.

Lemma active_conversation_is_archived_witness :
  exists w',
    clearActiveMessage Json.parse Json.stringify
      (Sample.world (Some (Json.stringify Sample.talk)) [])
    = (Returned true, w')
    /\ lookup "3f2a9c1e.json" (historyFiles (disk w'))
       = Some (Json.stringify Sample.talk)
    /\ activeFile (disk w') = None.
Proof.
  destruct (active_conversation_is_archived Json.parse Json.stringify
              (Json.stringify Sample.talk) Sample.talk "3f"
              (Sample.world (Some (Json.stringify Sample.talk)) []))
    as [(w' & H1 & H2 & H3 & _) _].
  - reflexivity.
  - vm_compute. reflexivity.
  - discriminate.
  - exists w'. auto.
Defined.


(** The prefix test is on the characters as they are: an upper-case
    prefix matches no lower-case name. *)
Example prefix_test_is_case_sensitive :
  matching "3F" [Sample.file "3f2a"] = []
  /\ matching "3f" [Sample.file "3f2a"] = ["3f2a.json"].
Proof. split; reflexivity. Qed.

(** A malformed active file reads as no conversation. *)
Example malformed_active_file_is_null :
  fst (loadActiveMessage Json.parse (Sample.world (Some "{ not json") []))
  = Returned None.
Proof. reflexivity. Qed.

(** A malformed history file is skipped, the others are listed, the latest
    update first. *)
Example listHistory_skips_malformed_file :
  fst (listHistory Json.parse IsoDate.getTime
         (Sample.world None [Sample.file "3f2a"; ("77b0.json", "{");
                             ("3f2a9c1e.json", Json.stringify Sample.talk)]))
  = Returned
      [HistoryRecord.mk "3f2a" "2025-02-01T08:00:00.000Z"
                        "2025-02-01T08:30:00.000Z" "hello" 1;
       HistoryRecord.mk "3f2a9c1e" "2025-01-01T10:00:00.000Z"
                        "2025-01-01T10:05:00.000Z"
                        "what is the capital of china" 3].
Proof. vm_compute. reflexivity. Qed.

(** A conversation without messages is read back as it was stamped. *)
Example save_then_load_empty_conversation :
  let fresh := MessageHistory.mk "0b1c" "2025-03-01T09:00:00.000Z"
                                 "2025-03-01T09:00:00.000Z" [] in
  fst (loadActiveMessage Json.parse
         (snd (saveActiveMessage Json.stringify fresh (Sample.world None []))))
  = Returned (Some (MessageHistory.set_updated fresh (Sample.stamp 0))).
Proof. vm_compute. reflexivity. Qed.

(** The ISO-date instance counts milliseconds from the epoch, and has no
    time for a text that is not a date. *)
Example IsoDate_getTime_samples :
  IsoDate.getTime "1970-01-01T00:00:00.000Z" = Some 0%Z
  /\ IsoDate.getTime "2025-06-01T12:00:00.000Z" = Some 1748779200000%Z
  /\ IsoDate.getTime "2025-02-29T00:00:00.000Z" = None
  /\ IsoDate.getTime "yesterday" = None.
Proof. vm_compute. repeat split. Qed.

(** * The claims about the task engine *)

Module TxFacts.

Import Calendar Tx.

Lemma ltb_not_eqb (a b : date) :
  Calendar.ltb a b = true -> Calendar.eqb a b = false.
Proof.
  unfold Calendar.ltb, Calendar.eqb. intros H.
  destruct (year a =? year b)%nat eqn:Ey; [|reflexivity].
  destruct (month a =? month b)%nat eqn:Em; [|reflexivity].
  destruct (day a =? day b)%nat eqn:Ed; [|reflexivity].
  apply Nat.eqb_eq in Ey, Em, Ed. rewrite Ey, Em, Ed in H.
  rewrite ?Nat.ltb_irrefl, ?Nat.eqb_refl in H. discriminate.
Qed.

Lemma overdue_not_due_today today t :
  overdue today t = true -> due_today today t = false.
Proof.
  unfold overdue, due_today.
  destruct (deadline t); [apply ltb_not_eqb|discriminate].
Qed.

Lemma urgent_not_high t :
  priority_is "urgent" t = true -> priority_is "high" t = false.
Proof.
  unfold priority_is. destruct (field "priority" (fields t)); [|discriminate].
  intros H. apply String.eqb_eq in H. now subst.
Qed.

Lemma rank_insert_perm today tasks t l :
  Permutation (rank_insert today tasks t l) (t :: l).
Proof.
  induction l as [|u l IH]; simpl; [reflexivity|].
  destruct (ranks_before today tasks t u); [reflexivity|].
  rewrite IH. apply perm_swap.
Qed.

Lemma focus_perm today tasks :
  Permutation (focus today tasks) (filter is_open tasks).
Proof.
  unfold focus.
  induction (filter is_open tasks) as [|t l IH]; simpl; [reflexivity|].
  rewrite rank_insert_perm. now constructor.
Qed.

(** C7, as amended.  The focus score of a task is the sum of +200 when
    overdue, +100 when due today, +100 when its priority is ["urgent"],
    +50 when it is ["high"], +40 for each open task it blocks and -50 when
    it is blocked.  An overdue urgent task scores 300 before the blocking
    and blocked adjustments.  A task that is neither overdue nor due
    today, neither urgent nor high, not blocked, and that blocks two open
    tasks scores 80.  The ranking is a function of the day and the task
    set, and orders exactly the open tasks. *)
Theorem focus_score_contributions (today : date) (tasks : list Task) (t : Task) :
  let blocking := Z.of_nat (List.length (open_blocked tasks t)) in
  let blocked := if isBlocked tasks t then 50%Z else 0%Z in
  score today tasks t
  = ((if overdue today t then 200 else 0)
     + (if due_today today t then 100 else 0)
     + (if priority_is "urgent" t then 100 else 0)
     + (if priority_is "high" t then 50 else 0)
     + 40 * blocking - blocked)%Z
  /\ (overdue today t = true -> priority_is "urgent" t = true ->
      score today tasks t = (300 + 40 * blocking - blocked)%Z)
  /\ (overdue today t = false -> due_today today t = false ->
      priority_is "urgent" t = false -> priority_is "high" t = false ->
      isBlocked tasks t = false -> List.length (open_blocked tasks t) = 2 ->
      score today tasks t = 80%Z)
  /\ (forall first second,
         first = focus today tasks -> second = focus today tasks ->
         first = second)
  /\ Permutation (focus today tasks) (filter is_open tasks).
Proof.
  cbv zeta.
  assert (E : score today tasks t
              = ((if overdue today t then 200 else 0)
                 + (if due_today today t then 100 else 0)
                 + (if priority_is "urgent" t then 100 else 0)
                 + (if priority_is "high" t then 50 else 0)
                 + 40 * Z.of_nat (List.length (open_blocked tasks t))
                 - (if isBlocked tasks t then 50 else 0))%Z).
  { unfold score.
    destruct (overdue today t), (due_today today t), (priority_is "urgent" t),
      (priority_is "high" t), (isBlocked tasks t); lia. }
  split; [exact E|]. split; [|split; [|split]].
  - intros Ho Hu. rewrite E, Ho, Hu.
    rewrite (overdue_not_due_today _ _ Ho), (urgent_not_high _ Hu). lia.
  - intros Ho Hd Hu Hh Hb Hn. rewrite E, Ho, Hd, Hu, Hh, Hb, Hn. reflexivity.
  - intros first second -> ->. reflexivity.
  - apply focus_perm.
Qed.

Lemma focus_score_contributions_witness :
  score Sample.today Sample.tasks Sample.late = 300%Z.
Proof.
  apply (focus_score_contributions Sample.today Sample.tasks Sample.late);
    reflexivity.
Defined.

(** C7 as stated fails: a task due today, so not overdue, of normal
    priority, so not urgent, that blocks two open tasks scores 180. *)
Lemma blocker_due_today_scores_180 :
  overdue Sample.today Sample.blocker = false
  /\ priority_is "urgent" Sample.blocker = false
  /\ open_blocked Sample.tasks Sample.blocker = ["b2"; "c3"]
  /\ score Sample.today Sample.tasks Sample.blocker = 180%Z.
Proof. vm_compute. repeat split. Qed.

(** A task without deadline and without priority that blocks two open
    tasks, and that nothing blocks, scores 80. *)
Example plain_blocker_scores_80 :
  let gate := mkTask "g8" "review PR" 0 open [] None None None ["b2"; "c3"] in
  score Sample.today [gate; Sample.plain "b2"; Sample.plain "c3"] gate = 80%Z.
Proof. reflexivity. Qed.




(** The monthly rule on the calendar: after 31 October comes 30 November,
    after 30 November 31 December, after 31 January 2025 the 28th of
    February. *)
Example monthly_on_31 :
  let rent := mkRecurrence monthly (Some (on_day 31)) in
  nextDeadline rent (mkDate 2025 10 31) = Some (mkDate 2025 11 30)
  /\ nextDeadline rent (mkDate 2025 11 30) = Some (mkDate 2025 12 31)
  /\ nextDeadline rent (mkDate 2025 12 31) = Some (mkDate 2026 1 31)
  /\ nextDeadline rent (mkDate 2025 1 31) = Some (mkDate 2025 2 28).
Proof. vm_compute. repeat split. Qed.


End TxFacts.

(** * Further properties of [src/qx.ts] *)

(** ** Directories *)

Lemma lookup_store_other (n name data : string) (l : Listing) :
  n <> name -> lookup n (store name data l) = lookup n l.
Proof.
  intros Hne. induction l as [|[m c] l IH]; simpl.
  - destruct (String.eqb_spec name n); congruence.
  - destruct (String.eqb_spec m name) as [->|Hm]; simpl.
    + destruct (String.eqb_spec name n); congruence.
    + now rewrite IH.
Qed.

Lemma store_names (name data : string) (l : Listing) :
  map fst (store name data l)
  = if existsb (String.eqb name) (map fst l) then map fst l
    else map fst l ++ [name].
Proof.
  induction l as [|[m c] l IH]; simpl; [reflexivity|].
  rewrite (String.eqb_sym name m).
  destruct (String.eqb m name); simpl; [reflexivity|].
  rewrite IH. now destruct (existsb _ _).
Qed.

Lemma existsb_eqb_in (name : string) (names : list string) :
  existsb (String.eqb name) names = true <-> In name names.
Proof.
  rewrite existsb_exists. split.
  - intros (x & Hx & E). apply String.eqb_eq in E. now subst.
  - intros H. exists name. split; [assumption|apply String.eqb_refl].
Qed.

Lemma store_in (f name data : string) (l : Listing) :
  In f (map fst (store name data l)) <-> f = name \/ In f (map fst l).
Proof.
  rewrite store_names.
  destruct (existsb _ _) eqn:E.
  - apply existsb_eqb_in in E. split; [tauto|]. intros [->|H]; assumption.
  - rewrite in_app_iff. simpl. intuition congruence.
Qed.

Lemma store_NoDup (name data : string) (l : Listing) :
  NoDup (map fst l) -> NoDup (map fst (store name data l)).
Proof.
  intros H. rewrite store_names.
  destruct (existsb _ _) eqn:E; [assumption|].
  apply NoDup_app; [assumption|repeat constructor; auto|].
  intros x Hx [<-|[]].
  apply existsb_eqb_in in Hx. congruence.
Qed.

Lemma slice0_le (n : nat) (s : string) : String.length (Js.slice0 n s) <= n.
Proof.
  unfold Js.slice0. revert s.
  induction n as [|n IH]; intros [|c s]; simpl; auto with arith.
Qed.



Lemma lookup_app_skip (f name content : string) (l1 l2 : Listing) :
  f <> name ->
  lookup f (l1 ++ (name, content) :: l2) = lookup f (l1 ++ l2).
Proof.
  intros Hne. induction l1 as [|[n c] l1 IH]; simpl.
  - destruct (String.eqb_spec name f); congruence.
  - now rewrite IH.
Qed.

Lemma flat_map_ext_in {A B} (f g : A -> list B) (l : list A) :
  (forall x, In x l -> f x = g x) -> flat_map f l = flat_map g l.
Proof.
  induction l as [|x l IH]; simpl; intros H; [reflexivity|].
  rewrite (H x) by now left. f_equal. apply IH. intros y Hy. apply H. now right.
Qed.

(** ** The conversation store *)

Section MoreStoreFacts.

Variable JSON_parse : string -> option MessageHistory.t.
Variable JSON_stringify : MessageHistory.t -> string.
Variable Date_getTime : string -> option Z.

Lemma archive_files_other (cur : option MessageHistory.t) (l : Listing)
      (name : string) :
  (forall c, cur = Some c -> name <> (MessageHistory.id c ++ ".json")%string) ->
  lookup name (archive_files JSON_stringify cur l) = lookup name l.
Proof.
  intros H. unfold archive_files. destruct cur as [c|]; [|reflexivity].
  destruct (nonempty c); [|reflexivity].
  apply lookup_store_other. now apply H.
Qed.


Lemma preview_of_length (h : MessageHistory.t) :
  String.length (preview_of h) <= 63.
Proof.
  unfold preview_of. destruct (find _ _) as [m|].
  - rewrite StringFacts.string_length_app.
    pose proof (slice0_le 60 (content m)) as H.
    destruct (60 <? String.length (content m))%nat eqn:E.
    + change (String.length "...") with 3. lia.
    + apply Nat.ltb_ge in E. change (String.length "") with 0. lia.
  - cbn. repeat constructor.
Qed.

Lemma stored_record_listed (h : MessageHistory.t) (l : Listing) :
  JSON_parse (JSON_stringify h) = Some h ->
  In (record_of h)
     (records_of JSON_parse
        (store (MessageHistory.id h ++ ".json") (JSON_stringify h) l)).
Proof.
  intros Hrt. unfold records_of. apply in_flat_map.
  exists (MessageHistory.id h ++ ".json")%string. split.
  - apply filter_In. split; [|apply StringFacts.endsWith_app].
    apply store_in. now left.
  - unfold record_of_file. rewrite lookup_store_same, Hrt. now left.
Qed.

Lemma loadActiveMessage_settled (w : World) (data : string)
      (h : MessageHistory.t) :
  disk w = Some (mkCxDir (Some data) (Some (historyFiles (disk w)))) ->
  JSON_parse data = Some h ->
  loadActiveMessage JSON_parse w = (Returned (Some h), w).
Proof.
  intros Hd Hp. rewrite loadActiveMessage_run.
  destruct w as [[[a [l|]]|] ck tk tr]; cbn in Hd; try discriminate.
  injection Hd as ->.
  unfold active_record, after_ensure, ensured. cbn.
  now rewrite Hp, app_nil_r.
Qed.

(** X1.  [ensureDirectories] always returns; afterwards [~/.cx] and
    [~/.cx/history] exist, the active file and every history file are as
    they were, the only calls made are [mkdirSync], and a second run
    changes nothing at all. *)
Theorem ensureDirectories_keeps_files (w : World) :
  exists w',
    ensureDirectories w = (Returned tt, w')
    /\ fst (existsSync CONFIG_DIR w') = Returned true
    /\ fst (existsSync HISTORY_DIR w') = Returned true
    /\ activeFile (disk w') = activeFile (disk w)
    /\ historyFiles (disk w') = historyFiles (disk w)
    /\ Forall (fun op => Stated.is_mkdir op = true) (ops_since w w')
    /\ ensureDirectories w' = (Returned tt, w').
Proof.
  exists (after_ensure w). split; [apply ensureDirectories_run|].
  repeat split.
  erewrite ops_since_app by reflexivity. apply mkdirs_are_mkdir.
Qed.

(** X2.  [loadActiveMessage] and [listHistory] only read: on every disk
    they return, they leave the active file and the history files as they
    were, they read no clock, and the only [fs] calls that change the disk
    are the [mkdirSync] calls of [ensureDirectories]. *)
Theorem reading_changes_no_file (w : World) :
  exists current records w',
    loadActiveMessage JSON_parse w = (Returned current, w')
    /\ listHistory JSON_parse Date_getTime w = (Returned records, w')
    /\ activeFile (disk w') = activeFile (disk w)
    /\ historyFiles (disk w') = historyFiles (disk w)
    /\ tick w' = tick w
    /\ ops_since w w' = mkdirs (disk w).
Proof.
  eexists. eexists. exists (after_ensure w).
  split; [apply loadActiveMessage_run|].
  split; [apply listHistory_run|].
  repeat split. now apply ops_since_app.
Qed.



(** X5.  Clearing and restoring is a round trip.  With a codec that reads
    back what it prints, when the active conversation has a message and its
    identifier is the start of no other [.json] file of the history,
    [clearActiveMessage] followed by [restoreHistory] on that identifier
    succeeds, and [loadActiveMessage] then yields the conversation again,
    with [updated] set to the time of the restore. *)
Theorem clear_then_restore (content : string) (cur : MessageHistory.t)
        (w : World) :
  let l := historyFiles (disk w) in
  let archive := (MessageHistory.id cur ++ ".json")%string in
  (forall x, JSON_parse (JSON_stringify x) = Some x) ->
  activeFile (disk w) = Some content ->
  JSON_parse content = Some cur ->
  MessageHistory.messages cur <> [] ->
  NoDup (map fst l) ->
  (forall f, In f (map fst l) -> f <> archive ->
             Js.endsWith f ".json" = true ->
             Js.startsWith f (MessageHistory.id cur) = false) ->
  exists w1 w2,
    clearActiveMessage JSON_parse JSON_stringify w = (Returned true, w1)
    /\ restoreHistory JSON_parse JSON_stringify (MessageHistory.id cur) w1
       = (Returned success, w2)
    /\ loadActiveMessage JSON_parse w2
       = (Returned (Some (MessageHistory.set_updated cur (clock w (tick w)))),
          w2).
Proof.
  cbv zeta. intros Hrt Ha Hp Hne Hnd Hothers.
  assert (Hcur : active_record JSON_parse (disk w) = Some cur).
  { unfold active_record. now rewrite Ha. }
  assert (Hn : nonempty cur = true).
  { unfold nonempty.
    destruct (MessageHistory.messages cur); [congruence|reflexivity]. }
  rewrite clearActiveMessage_run. cbv zeta. rewrite Ha, Hcur.
  unfold archive_files, archive_ops. rewrite Hn.
  eexists. eexists. split; [reflexivity|].
  rewrite restoreHistory_run. cbv zeta. cbn [disk historyFiles history].
  set (name := (MessageHistory.id cur ++ ".json")%string) in *.
  set (l1 := store name (JSON_stringify cur) (historyFiles (disk w))).
  assert (Hm : matching (MessageHistory.id cur) l1 = [name]).
  { unfold matching. apply filter_unique.
    - now apply store_NoDup.
    - apply store_in. now left.
    - unfold name.
      now rewrite StringFacts.endsWith_app, StringFacts.startsWith_self.
    - intros f Hf Hnf. apply store_in in Hf as [->|Hf]; [congruence|].
      destruct (Js.endsWith f ".json") eqn:E; [|reflexivity].
      simpl. now apply Hothers. }
  rewrite Hm. unfold l1 at 1. rewrite lookup_store_same, Hrt.
  cbn [clock tick trace]. split; [reflexivity|].
  rewrite loadActiveMessage_run. unfold active_record, after_ensure. cbn.
  now rewrite Hrt, app_nil_r.
Qed.


(** X7.  No operation of the store deletes or rewrites a history file,
    except to archive a conversation under its own identifier: a history
    file that is not [<id>.json] for the active conversation is there, with
    the same content, after [loadActiveMessage], [listHistory],
    [clearActiveMessage], [restoreHistory] on any prefix and
    [saveActiveMessage] of any conversation, and after [archiveToHistory]
    of a conversation with another identifier. *)
Theorem history_files_are_kept (name content : string) (w : World) :
  lookup name (historyFiles (disk w)) = Some content ->
  (forall cur, active_record JSON_parse (disk w) = Some cur ->
               name <> (MessageHistory.id cur ++ ".json")%string) ->
  let kept (w' : World) := lookup name (historyFiles (disk w')) = Some content in
  kept (snd (loadActiveMessage JSON_parse w))
  /\ kept (snd (listHistory JSON_parse Date_getTime w))
  /\ kept (snd (clearActiveMessage JSON_parse JSON_stringify w))
  /\ (forall guid, kept (snd (restoreHistory JSON_parse JSON_stringify guid w)))
  /\ (forall h, kept (snd (saveActiveMessage JSON_stringify h w)))
  /\ (forall h, name <> (MessageHistory.id h ++ ".json")%string ->
                kept (snd (archiveToHistory JSON_stringify h w))).
Proof.
  intros Hl Hcur kept. unfold kept.
  pose proof (archive_files_other (active_record JSON_parse (disk w))
                                  (historyFiles (disk w)) name Hcur) as Hother.
  repeat split.
  - now rewrite loadActiveMessage_run.
  - now rewrite listHistory_run.
  - rewrite clearActiveMessage_run. cbv zeta.
    destruct (activeFile (disk w)); cbn; congruence.
  - intros guid. rewrite restoreHistory_run. cbv zeta.
    destruct (matching guid (historyFiles (disk w))) as [|f [|g rest]];
      try assumption.
    destruct (lookup f (historyFiles (disk w))) as [c|]; try assumption.
    destruct (JSON_parse c); try assumption.
    cbn. congruence.
  - intros h. now rewrite saveActiveMessage_run.
  - intros h Hne. rewrite archiveToHistory_run. cbn.
    now rewrite lookup_store_other.
Qed.

(** X8.  [listHistory] returns at most one record per [.json] file of the
    history, and the preview of every record has at most 63 characters:
    60 of the first human message and the three dots. *)
Theorem listed_previews_are_short (w : World) :
  exists records w',
    listHistory JSON_parse Date_getTime w = (Returned records, w')
    /\ List.length records
       <= List.length (filter (fun f => Js.endsWith f ".json")
                              (map fst (historyFiles (disk w))))
    /\ Forall (fun r => String.length (HistoryRecord.preview r) <= 63) records.
Proof.
  eexists. eexists. split; [apply listHistory_run|].
  split.
  - rewrite (Permutation_length (Array_sort_perm _ _)).
    unfold records_of.
    induction (filter _ _) as [|f files IH]; simpl; [auto|].
    rewrite length_app. unfold record_of_file at 1.
    destruct (lookup f _) as [c|]; [destruct (JSON_parse c)|]; simpl; lia.
  - rewrite (Array_sort_perm _ _).
    unfold records_of. apply Forall_flat_map, Forall_forall.
    intros f _. unfold record_of_file.
    destruct (lookup f _) as [c|]; [destruct (JSON_parse c) as [h|]|];
      constructor; [apply preview_of_length|constructor].
Qed.


(** X10.  A file of the history directory whose name does not end in
    [".json"] is ignored: with or without it, [listHistory] returns the
    same records and [restoreHistory] the same outcome, for every prefix. *)
Theorem other_files_are_ignored
        (active : option string) (l1 l2 : Listing) (name content guid : string)
        (ck : nat -> string) (tk : nat) (tr : list FsOp) :
  let w := mkWorld (Some (mkCxDir active (Some (l1 ++ l2)))) ck tk tr in
  let w' := mkWorld (Some (mkCxDir active (Some (l1 ++ (name, content) :: l2))))
                    ck tk tr in
  Js.endsWith name ".json" = false ->
  fst (listHistory JSON_parse Date_getTime w')
  = fst (listHistory JSON_parse Date_getTime w)
  /\ fst (restoreHistory JSON_parse JSON_stringify guid w')
     = fst (restoreHistory JSON_parse JSON_stringify guid w).
Proof.
  cbv zeta. intros He.
  assert (Hnames : forall p : string -> bool,
             p name = false ->
             filter p (map fst (l1 ++ (name, content) :: l2))
             = filter p (map fst (l1 ++ l2))).
  { intros p Hp. rewrite !map_app, !filter_app. cbn. now rewrite Hp. }
  assert (Hlook : forall f, Js.endsWith f ".json" = true ->
             lookup f (l1 ++ (name, content) :: l2) = lookup f (l1 ++ l2)).
  { intros f Hf. apply lookup_app_skip. congruence. }
  split.
  - rewrite !listHistory_run. cbn [fst disk historyFiles history]. f_equal.
    f_equal. unfold records_of. rewrite (Hnames _ He).
    apply flat_map_ext_in. intros f Hf. apply filter_In in Hf as [_ Hf].
    unfold record_of_file. now rewrite Hlook.
  - rewrite !restoreHistory_run. cbv zeta. cbn [disk historyFiles history].
    unfold matching. rewrite Hnames by now rewrite He.
    destruct (filter _ (map fst (l1 ++ l2))) as [|f [|g rest]] eqn:E;
      try reflexivity.
    assert (Hf : Js.endsWith f ".json" = true).
    { assert (H : In f [f]) by now left. rewrite <- E in H.
      apply filter_In in H as [_ H]. now apply andb_prop in H as [H _]. }
    rewrite (Hlook f Hf).
    destruct (lookup f (l1 ++ l2)) as [c|]; [|reflexivity].
    destruct (JSON_parse c); reflexivity.
Qed.

End MoreStoreFacts.

(** ** Model selection *)

Lemma or_string_nonempty (a : option string) (b : string) :
  b <> "" -> or_string a b <> "".
Proof.
  intros Hb. unfold or_string. destruct a as [s|]; [|assumption].
  destruct (String.eqb_spec s ""); assumption.
Qed.

(** X11.  [createModel] itself throws in exactly three cases: the provider is
    ["openai"] and the configuration has no [openai] section, the provider
    is ["local"] and it has no [local] section, or the provider is none of
    ["bedrock"], ["openai"], ["local"]; the message names the case.  With
    the provider ["bedrock"] it never throws. *)
Theorem createModel_fails_iff (config : Config.t) (message : string) :
  createModel config = inr message <->
  (Config.provider config = "openai" /\ Config.openai config = None
   /\ message = "OpenAI config not found")
  \/ (Config.provider config = "local" /\ Config.local config = None
      /\ message = "Local config not found")
  \/ (Config.provider config <> "bedrock" /\ Config.provider config <> "openai"
      /\ Config.provider config <> "local"
      /\ message = ("Unknown provider: " ++ Config.provider config)%string).
Proof.
  unfold createModel.
  destruct (String.eqb_spec (Config.provider config) "bedrock") as [Eb|Nb].
  { rewrite Eb. split; [discriminate|].
    intros [(H & _)|[(H & _)|(H & _)]]; congruence. }
  destruct (String.eqb_spec (Config.provider config) "openai") as [Eo|No].
  { rewrite Eo. destruct (Config.openai config) as [c|].
    - split; [discriminate|].
      intros [(_ & H & _)|[(H & _)|(_ & H & _)]]; congruence.
    - split.
      + intros [= <-]. auto.
      + intros [(_ & _ & ->)|[(H & _)|(_ & H & _)]]; congruence. }
  destruct (String.eqb_spec (Config.provider config) "local") as [El|Nl].
  { rewrite El. destruct (Config.local config) as [c|].
    - split; [discriminate|].
      intros [(H & _)|[(_ & H & _)|(_ & _ & H & _)]]; congruence.
    - split.
      + intros [= <-]. auto.
      + intros [(H & _)|[(_ & _ & ->)|(_ & _ & H & _)]]; congruence. }
  split.
  - intros [= <-]. auto 6.
  - intros [(H & _)|[(H & _)|(_ & _ & _ & ->)]]; congruence.
Qed.

(** X12.  The model [createModel] constructs never has an empty option
    where the source gives a default.  A Bedrock model has a non-empty
    model name and region, the configured ones when they are non-empty; a
    model of the provider ["local"] has a non-empty API key, the
    configured one or ["not-needed"]; a model of the provider ["openai"]
    has the three configured values as they are. *)
Theorem createModel_fills_defaults (config : Config.t) (m : BaseChatModel) :
  createModel config = inl m ->
  match m with
  | ChatBedrockConverse model region =>
      Config.provider config = "bedrock" /\ model <> "" /\ region <> ""
      /\ (forall b s, Config.bedrock config = Some b ->
                      BedrockConfig.model b = Some s -> s <> "" -> model = s)
      /\ (forall b s, Config.bedrock config = Some b ->
                      BedrockConfig.region b = Some s -> s <> "" -> region = s)
  | ChatOpenAI modelName openAIApiKey baseURL =>
      (Config.provider config = "openai"
       /\ Config.openai config
          = Some (OpenAIConfig.mk baseURL openAIApiKey modelName))
      \/ (Config.provider config = "local" /\ openAIApiKey <> ""
          /\ exists key, Config.local config
                         = Some (LocalConfig.mk baseURL modelName key)
                         /\ openAIApiKey = or_string key "not-needed")
  end.
Proof.
  assert (Hor : forall s d, s <> "" -> or_string (Some s) d = s).
  { intros s d Hs. unfold or_string. destruct (String.eqb_spec s ""); congruence. }
  unfold createModel.
  destruct (String.eqb_spec (Config.provider config) "bedrock") as [Eb|Nb].
  { intros [= <-]. split; [assumption|].
    split; [apply or_string_nonempty; discriminate|].
    split; [apply or_string_nonempty; discriminate|].
    split; intros b s -> -> Hs; now rewrite Hor. }
  destruct (String.eqb_spec (Config.provider config) "openai") as [Eo|No].
  { destruct (Config.openai config) as [[u k n]|]; [|discriminate].
    intros [= <-]. left. auto. }
  destruct (String.eqb_spec (Config.provider config) "local") as [El|Nl];
    [|discriminate].
  destruct (Config.local config) as [[u n k]|]; [|discriminate].
  intros [= <-]. right. split; [assumption|].
  split; [apply or_string_nonempty; discriminate|]. exists k. auto.
Qed.

(** ** The bash tool *)

Lemma trimStart_length (s : string) :
  String.length (Js.trimStart s) <= String.length s.
Proof.
  induction s as [|c s IH]; simpl; [auto|].
  destruct (Js.is_space c); simpl; lia.
Qed.

Lemma trimEnd_length (s : string) :
  String.length (Js.trimEnd s) <= String.length s.
Proof.
  induction s as [|c s IH]; simpl; [auto|].
  destruct (Js.trimEnd s); [destruct (Js.is_space c)|]; simpl in *; lia.
Qed.

Lemma trim_length (s : string) : String.length (Js.trim s) <= String.length s.
Proof.
  unfold Js.trim.
  pose proof (trimEnd_length (Js.trimStart s)).
  pose proof (trimStart_length s). lia.
Qed.

Lemma bash_output_nonempty (output : string) : bash_output output <> "".
Proof.
  unfold bash_output.
  destruct (output_limit <? String.length (Js.trim output))%nat.
  - intros H. apply (f_equal String.length) in H.
    rewrite StringFacts.string_length_app in H.
    change (String.length truncated_mark) with 23 in H.
    change (String.length "") with 0 in H. lia.
  - destruct (String.eqb_spec (Js.trim output) ""); [discriminate|assumption].
Qed.

Lemma bash_error_nonempty (error : ExecException) : bash_error error <> "".
Proof. destruct error; discriminate. Qed.


Lemma bashTool_returns (execSync : ExecSync) (command : string) (w : World) :
  exists result,
    bashTool execSync command w = (Returned result, snd (execSync command w))
    /\ result <> "".
Proof.
  unfold bashTool. destruct (execSync command w) as [[output|error] w'].
  - eexists. split; [reflexivity|apply bash_output_nonempty].
  - eexists. split; [reflexivity|apply bash_error_nonempty].
Qed.



(** ** The chat loop *)

Section ChatFacts.

Variable JSON_parse : string -> option MessageHistory.t.
Variable JSON_stringify : MessageHistory.t -> string.
Variable Date_getTime : string -> option Z.
Variable MessageContentComplex : Type.
Variable JSON_stringify_content : MessageContentComplex -> string.
Variable getSystemPrompt : string.
Variable invoke : list (BaseMessage MessageContentComplex)
                  -> M (AIMessageChunk MessageContentComplex).
Variable execSync : ExecSync.

Lemma run_tool_call_returns (messages : list (BaseMessage MessageContentComplex))
      (toolCall : ToolCall.t) (w : World) :
  exists messages',
    run_tool_call execSync messages toolCall w
    = (Returned messages',
       if String.eqb (ToolCall.name toolCall) "bash"
       then snd (execSync (ToolCall.args toolCall) w) else w).
Proof.
  unfold run_tool_call.
  destruct (String.eqb (ToolCall.name toolCall) "bash").
  - unfold bind, bashTool, ret.
    destruct (execSync (ToolCall.args toolCall) w) as [[out|err] w1];
      eexists; reflexivity.
  - eexists. reflexivity.
Qed.

Lemma tool_calls_return (calls : list ToolCall.t) :
  forall (messages : list (BaseMessage MessageContentComplex)) w,
  exists messages' w',
    for_of calls (run_tool_call execSync) messages w = (Returned messages', w')
    /\ ((forall command, leaves_files (execSync command)) ->
        disk w' = disk w /\ trace w' = trace w).
Proof.
  induction calls as [|c calls IH]; intros messages w.
  - exists messages, w. cbn. auto.
  - cbn [for_of].
    destruct (run_tool_call_returns messages c w) as [ms Hc].
    rewrite (bind_returned _ _ _ _ _ Hc).
    match type of Hc with _ = (_, ?w1) =>
      destruct (IH ms w1) as (ms' & w2 & Hrun & Hq) end.
    exists ms', w2. split; [exact Hrun|].
    intros Hquiet. destruct (Hq Hquiet) as [Hd Ht]. rewrite Hd, Ht.
    destruct (String.eqb (ToolCall.name c) "bash"); [|auto].
    apply Hquiet.
Qed.

Lemma final_answer_run (history : MessageHistory.t) (answer : string)
      (w : World) :
  let stored :=
    MessageHistory.mk
      (MessageHistory.id history) (MessageHistory.created history)
      (clock w (S (tick w)))
      (MessageHistory.messages history
         ++ [mkStoredMessage assistant answer (clock w (tick w))]) in
  (timestamp <- new_Date_toISOString ;;
   saveActiveMessage JSON_stringify
     (push_message history (mkStoredMessage assistant answer timestamp)) ;;
   ret (answered answer)) w
  = (Returned (answered answer),
     mkWorld (Some (mkCxDir (Some (JSON_stringify stored))
                            (Some (historyFiles (disk w)))))
             (clock w) (S (S (tick w)))
             (trace w ++ mkdirs (disk w)
                ++ [write ACTIVE_MESSAGE_PATH (JSON_stringify stored)])).
Proof.
  cbv zeta. unfold bind at 1, new_Date_toISOString. unfold bind at 1.
  rewrite saveActiveMessage_run. reflexivity.
Qed.

(** Whenever the loop ends with an answer, the active file holds the
    conversation it was given and that answer. *)
Lemma chat_loop_answered (n : nat) :
  forall history messages w answer w',
    chat_loop JSON_stringify JSON_stringify_content invoke execSync
              n history messages w
    = (Returned (answered answer), w') ->
    exists replied u,
      let stored :=
        MessageHistory.mk
          (MessageHistory.id history) (MessageHistory.created history) u
          (MessageHistory.messages history
             ++ [mkStoredMessage assistant answer replied]) in
      disk w' = Some (mkCxDir (Some (JSON_stringify stored))
                              (Some (historyFiles (disk w'))))
      /\ exists tr, trace w' = tr ++ [write ACTIVE_MESSAGE_PATH
                                            (JSON_stringify stored)].
Proof.
  induction n as [|n IH]; intros history messages w answer w'.
  - cbn. unfold ret. discriminate.
  - cbn [chat_loop]. unfold bind at 1.
    destruct (invoke messages w) as [[response|e] w1]; [|discriminate].
    cbv zeta.
    destruct (tool_calls response) as [[|c cs]|];
      try (rewrite final_answer_run; cbv zeta;
           intros [= <- <-]; eexists; eexists; cbn; (split; [reflexivity|]);
           eexists; rewrite app_assoc; reflexivity).
    destruct (tool_calls_return (c :: cs) (messages ++ [reply response]) w1)
      as (ms & w2 & Hrun & _).
    rewrite (bind_returned _ _ _ _ _ Hrun). apply IH.
Qed.

(** Unless the loop ends with an answer, it changes no file when the model
    and the commands change none; the history directory is never changed. *)
Lemma chat_loop_quiet (n : nat) :
  (forall messages, leaves_files (invoke messages)) ->
  (forall command, leaves_files (execSync command)) ->
  forall history messages w r w',
    chat_loop JSON_stringify JSON_stringify_content invoke execSync
              n history messages w = (r, w') ->
    historyFiles (disk w') = historyFiles (disk w)
    /\ ((exists answer, r = Returned (answered answer))
        \/ (disk w' = disk w /\ trace w' = trace w)).
Proof.
  intros Hi He. induction n as [|n IH]; intros history messages w r w'.
  - cbn. unfold ret. intros [= <- <-]. auto.
  - cbn [chat_loop]. unfold bind at 1.
    destruct (Hi messages w) as [Hd Ht].
    destruct (invoke messages w) as [[response|e] w1]; cbn [snd] in Hd, Ht;
      [|intros [= <- <-]; rewrite Hd; auto].
    cbv zeta.
    destruct (tool_calls response) as [[|c cs]|];
      try (rewrite final_answer_run; intros [= <- <-]; cbn; rewrite Hd;
           split; [reflexivity|]; left; eexists; reflexivity).
    destruct (tool_calls_return (c :: cs) (messages ++ [reply response]) w1)
      as (ms & w2 & Hrun & Hq).
    rewrite (bind_returned _ _ _ _ _ Hrun).
    destruct (Hq He) as [Hd2 Ht2]. intros Hloop.
    destruct (IH history ms w2 r w' Hloop) as [Hh Hrest].
    rewrite Hh, Hd2, Hd. split; [reflexivity|].
    destruct Hrest as [Ha|[Hd3 Ht3]]; [now left|right].
    rewrite Hd3, Ht3, Hd2, Ht2, Hd, Ht. auto.
Qed.


Lemma chat_run (uuid query : string) (w : World) :
  chat JSON_parse JSON_stringify JSON_stringify_content getSystemPrompt
       invoke execSync uuid query w
  = chat_loop JSON_stringify JSON_stringify_content invoke execSync
              maxIterations
              (asked JSON_parse getSystemPrompt uuid query w)
              (storedToLangchain
                 (MessageHistory.messages
                    (asked JSON_parse getSystemPrompt uuid query w)))
              (asked_world JSON_parse getSystemPrompt uuid w).
Proof.
  unfold chat.
  rewrite (bind_returned _ _ _ _ _ (loadActiveMessage_run JSON_parse w)).
  unfold asked, asked_world, opening.
  destruct (active_record JSON_parse (disk w)) as [h|].
  - unfold bind at 1, ret at 1.
    destruct (List.length (MessageHistory.messages h) =? 0)%nat; reflexivity.
  - reflexivity.
Qed.

(** X15.  When [chat] ends with an answer, the active file holds the
    conversation it started from followed by exactly two messages, the
    question and the answer: the active conversation with its identifier
    and [created], preceded by the system message when it had no message,
    or a new conversation with the drawn identifier and the system message
    when there was none or it did not parse.  Replies that ask for the
    tool, and the results of the tool, are not stored.  With a codec that
    reads back what it prints, [loadActiveMessage] then yields that
    conversation. *)
Theorem chat_stores_the_exchange (uuid query answer : string) (w w' : World) :
  (forall x, JSON_parse (JSON_stringify x) = Some x) ->
  chat JSON_parse JSON_stringify JSON_stringify_content getSystemPrompt
       invoke execSync uuid query w
  = (Returned (answered answer), w') ->
  exists stored t0 t1 t2,
    activeFile (disk w') = Some (JSON_stringify stored)
    /\ loadActiveMessage JSON_parse w' = (Returned (Some stored), w')
    /\ let exchange := [mkStoredMessage human query t1;
                        mkStoredMessage assistant answer t2] in
       let opened := mkStoredMessage system getSystemPrompt t0 in
       match active_record JSON_parse (disk w) with
       | Some h =>
           MessageHistory.id stored = MessageHistory.id h
           /\ MessageHistory.created stored = MessageHistory.created h
           /\ MessageHistory.messages stored
              = match MessageHistory.messages h with
                | [] => opened :: exchange
                | earlier => earlier ++ exchange
                end
       | None =>
           MessageHistory.id stored = uuid
           /\ MessageHistory.messages stored = opened :: exchange
       end.
Proof.
  intros Hrt Hchat. rewrite chat_run in Hchat.
  apply chat_loop_answered in Hchat as (t2 & u & Hd & _).
  cbv zeta in Hd.
  eexists.
  exists (clock w (match active_record JSON_parse (disk w) with
                   | Some _ => tick w | None => 2 + tick w end)).
  exists (clock w (snd (opening JSON_parse getSystemPrompt uuid w) + tick w)).
  exists t2.
  split; [rewrite Hd; reflexivity|].
  split; [eapply loadActiveMessage_settled; [exact Hd|apply Hrt]|].
  cbv zeta. unfold asked, opening.
  destruct (active_record JSON_parse (disk w)) as [h|]; cbn.
  - destruct (MessageHistory.messages h) as [|m ms] eqn:Hm; cbn.
    + rewrite Hm. auto.
    + rewrite <- app_assoc, Hm. auto.
  - auto.
Qed.


(** X17.  When neither the model nor the commands of the tool change the
    files of [~/.cx], [chat] never changes the history files, and unless it
    ends with an answer (the iterations are used up, or the model throws)
    it leaves the active file as it was and makes no [fs] call besides the
    [mkdirSync] ones: the question is not recorded. *)
Theorem chat_without_answer_writes_nothing (uuid query : string) (w : World)
        (r : Completion ChatOutcome) (w' : World) :
  (forall messages, leaves_files (invoke messages)) ->
  (forall command, leaves_files (execSync command)) ->
  chat JSON_parse JSON_stringify JSON_stringify_content getSystemPrompt
       invoke execSync uuid query w = (r, w') ->
  historyFiles (disk w') = historyFiles (disk w)
  /\ ((forall answer, r <> Returned (answered answer)) ->
      activeFile (disk w') = activeFile (disk w)
      /\ ops_since w w' = mkdirs (disk w)).
Proof.
  intros Hi He Hchat. rewrite chat_run in Hchat.
  apply (chat_loop_quiet _ Hi He) in Hchat as [Hh Hrest].
  split; [exact Hh|].
  intros Hno. destruct Hrest as [[answer ->]|[Hd Ht]].
  - now destruct (Hno answer).
  - rewrite Hd. split; [reflexivity|]. now apply ops_since_app.
Qed.

(** X18.  With a codec that reads back what it prints, a conversation that
    [chat] answered can be cleared and is then listed: [clearActiveMessage]
    returns [true] and leaves no active conversation, and the next
    [listHistory] has the record of the conversation; for a conversation
    that [chat] started, that record has the drawn identifier, three
    messages, and the question, cut at 60 characters, as its preview. *)
Theorem answered_chat_can_be_cleared_and_listed
        (uuid query answer : string) (w w1 : World) :
  (forall x, JSON_parse (JSON_stringify x) = Some x) ->
  chat JSON_parse JSON_stringify JSON_stringify_content getSystemPrompt
       invoke execSync uuid query w
  = (Returned (answered answer), w1) ->
  exists stored w2 records w3,
    loadActiveMessage JSON_parse w1 = (Returned (Some stored), w1)
    /\ clearActiveMessage JSON_parse JSON_stringify w1 = (Returned true, w2)
    /\ loadActiveMessage JSON_parse w2 = (Returned None, w2)
    /\ listHistory JSON_parse Date_getTime w2 = (Returned records, w3)
    /\ In (record_of stored) records
    /\ (active_record JSON_parse (disk w) = None ->
        HistoryRecord.id (record_of stored) = uuid
        /\ HistoryRecord.messageCount (record_of stored) = 3
        /\ HistoryRecord.preview (record_of stored)
           = (Js.slice0 60 query
              ++ (if (60 <? String.length query)%nat then "..." else ""))%string).
Proof.
  intros Hrt Hchat. rewrite chat_run in Hchat.
  apply chat_loop_answered in Hchat as (t2 & u & Hd & _).
  cbv zeta in Hd.
  eexists. eexists. eexists. eexists.
  split; [eapply loadActiveMessage_settled; [exact Hd|apply Hrt]|].
  rewrite clearActiveMessage_run. cbv zeta.
  unfold active_record. rewrite Hd.
  cbn [activeFile active_message_json historyFiles history].
  rewrite Hrt. unfold archive_files, archive_ops, nonempty.
  cbn [MessageHistory.messages]. rewrite length_app, Nat.add_comm.
  cbn [List.length Nat.add Nat.ltb Nat.leb].
  split; [reflexivity|].
  split.
  { rewrite loadActiveMessage_run. unfold active_record, after_ensure. cbn.
    now rewrite app_nil_r. }
  split; [apply listHistory_run|].
  split.
  { apply (Permutation_in _ (Permutation_sym (Array_sort_perm _ _))).
    cbn [disk historyFiles history].
    match goal with
    | |- In (record_of ?h) _ => apply (stored_record_listed _ _ h), Hrt
    end. }
  intros Hnone. unfold asked, opening, active_record. rewrite Hnone. cbn.
  repeat split.
Qed.

(** X19.  The tool calls of a reply are run in their order, and the loop
    over them always returns: every call named ["bash"] adds one tool
    message, with the identifier of the call and a non-empty content, after
    the messages so far; a call of any other name adds no message. *)
Theorem bash_calls_are_answered_in_order (calls : list ToolCall.t) :
  forall (messages : list (BaseMessage MessageContentComplex)) (w : World),
  exists results w',
    for_of calls (run_tool_call execSync) messages w
    = (Returned (messages ++ results), w')
    /\ Forall2 (fun result toolCall =>
                  exists output,
                    result = tool_result output (ToolCall.id toolCall)
                    /\ output <> "")
               results
               (filter (fun c => String.eqb (ToolCall.name c) "bash") calls).
Proof.
  induction calls as [|c calls IH]; intros messages w.
  - exists [], w. cbn. unfold ret. rewrite app_nil_r. auto.
  - cbn [for_of filter]. unfold bind at 1. unfold run_tool_call at 1.
    destruct (String.eqb (ToolCall.name c) "bash").
    + destruct (bashTool_returns execSync (ToolCall.args c) w)
        as (out & Hb & Hne).
      rewrite (bind_returned _ _ _ _ _ Hb). unfold ret at 1.
      destruct (IH (messages ++ [tool_result out (ToolCall.id c)])
                   (snd (execSync (ToolCall.args c) w)))
        as (results & w' & Hrun & Hall).
      rewrite Hrun, <- app_assoc. eexists. eexists.
      split; [reflexivity|]. constructor; [eauto|exact Hall].
    + unfold ret at 1. apply IH.
Qed.

End ChatFacts.

Lemma bind_ext {A B} (m m' : M A) (k k' : A -> M B) (w : World) :
  m w = m' w -> (forall a w', k a w' = k' a w') -> bind m k w = bind m' k' w.
Proof.
  intros Hm Hk. unfold bind. rewrite <- Hm.
  destruct (m w) as [[a|e] w1]; [apply Hk|reflexivity].
Qed.

Section ChatBound.

Variable JSON_parse : string -> option MessageHistory.t.
Variable JSON_stringify : MessageHistory.t -> string.
Variable MessageContentComplex : Type.
Variable JSON_stringify_content : MessageContentComplex -> string.
Variable getSystemPrompt : string.
Variable invoke invoke' : list (BaseMessage MessageContentComplex)
                          -> M (AIMessageChunk MessageContentComplex).
Variable execSync : ExecSync.

Lemma count_replies_app (a b : list (BaseMessage MessageContentComplex)) :
  count_replies (a ++ b) = count_replies a + count_replies b.
Proof. unfold count_replies. now rewrite filter_app, length_app. Qed.

Lemma count_replies_stored (stored : list StoredMessage) :
  count_replies
    (storedToLangchain (MessageContentComplex := MessageContentComplex) stored)
  = 0.
Proof.
  induction stored as [|m l IH]; [reflexivity|].
  unfold count_replies in *. cbn. now destruct (role m).
Qed.

Lemma tool_calls_add_no_reply (calls : list ToolCall.t) :
  forall (messages messages' : list (BaseMessage MessageContentComplex)) w w',
    for_of calls (run_tool_call execSync) messages w = (Returned messages', w') ->
    count_replies messages' = count_replies messages.
Proof.
  induction calls as [|c calls IH]; intros messages messages' w w'.
  - cbn. unfold ret. now intros [= <- <-].
  - cbn [for_of].
    destruct (run_tool_call_returns MessageContentComplex execSync messages c w)
      as [ms Hc].
    rewrite (bind_returned _ _ _ _ _ Hc). intros Hrun.
    rewrite (IH _ _ _ _ Hrun).
    revert Hc. unfold run_tool_call.
    destruct (String.eqb (ToolCall.name c) "bash").
    + unfold bind, bashTool, ret.
      destruct (execSync (ToolCall.args c) w) as [[out|err] w1];
        intros [= <-]; rewrite count_replies_app; cbn; lia.
    + unfold ret. now intros [= <-].
Qed.

(** The loop asks the model only about messages that hold fewer replies
    than it has iterations left to add. *)
Lemma chat_loop_ext (n : nat) :
  forall history messages w,
    (forall messages' w', count_replies messages' < count_replies messages + n ->
                          invoke messages' w' = invoke' messages' w') ->
    chat_loop JSON_stringify JSON_stringify_content invoke execSync
              n history messages w
    = chat_loop JSON_stringify JSON_stringify_content invoke' execSync
                n history messages w.
Proof.
  induction n as [|n IH]; intros history messages w Hsame; [reflexivity|].
  cbn [chat_loop]. apply bind_ext; [apply Hsame; lia|].
  intros response w1. cbv zeta.
  destruct (tool_calls response) as [[|c cs]|]; try reflexivity.
  destruct (tool_calls_return MessageContentComplex execSync (c :: cs)
              (messages ++ [reply response]) w1)
    as (ms & w2 & Hrun & _).
  rewrite !(bind_returned _ _ _ _ _ Hrun).
  apply IH. intros messages' w' Hlt. apply Hsame.
  rewrite (tool_calls_add_no_reply _ _ _ _ _ Hrun), count_replies_app in Hlt.
  cbn in Hlt. lia.
Qed.

(** X20.  [chat] consults the model at most ten times: two models that
    agree on every list of messages with fewer than ten replies give the
    same outcome and the same world, so what the model would say after its
    tenth reply is never asked for. *)
Theorem chat_consults_the_model_ten_times_at_most
        (uuid query : string) (w : World) :
  (forall messages w', count_replies messages < maxIterations ->
                       invoke messages w' = invoke' messages w') ->
  chat JSON_parse JSON_stringify JSON_stringify_content getSystemPrompt
       invoke execSync uuid query w
  = chat JSON_parse JSON_stringify JSON_stringify_content getSystemPrompt
         invoke' execSync uuid query w.
Proof.
  intros Hsame. rewrite !chat_run. apply chat_loop_ext.
  intros messages' w'. rewrite count_replies_stored. apply Hsame.
Qed.

End ChatBound.

(** X21.  [storedToLangchain] gives the model one message per stored
    message, in the same order, and keeps exactly the role and the content
    of each: two stored lists give the same messages if and only if they
    agree on roles and contents; the timestamps are not passed on. *)
Theorem storedToLangchain_keeps_roles_and_contents
        (MessageContentComplex : Type) (a b : list StoredMessage) :
  List.length
    (storedToLangchain (MessageContentComplex := MessageContentComplex) a)
  = List.length a
  /\ (storedToLangchain (MessageContentComplex := MessageContentComplex) a
      = storedToLangchain b
      <-> map (fun m => (role m, content m)) a
          = map (fun m => (role m, content m)) b).
Proof.
  unfold storedToLangchain. split; [apply length_map|].
  revert b. induction a as [|x a IH]; intros [|y b]; cbn [map];
    try (split; (reflexivity || discriminate)).
  split.
  - intros H. injection H as H1 H2. apply IH in H2. rewrite H2. f_equal.
    destruct (role x), (role y); congruence.
  - intros [= H1 H2 H3]. apply IH in H3. now rewrite H1, H2, H3.
Qed.

(** ** The properties at sample data *)


Lemma clear_then_restore_witness :
  exists w1 w2,
    clearActiveMessage Json.parse Json.stringify
      (Sample.world (Some (Json.stringify Sample.talk)) [Sample.file "77b0"])
    = (Returned true, w1)
    /\ restoreHistory Json.parse Json.stringify "3f2a9c1e" w1
       = (Returned success, w2)
    /\ loadActiveMessage Json.parse w2
       = (Returned (Some (MessageHistory.set_updated Sample.talk
                                                     (Sample.stamp 0))), w2).
Proof.
  apply (clear_then_restore Json.parse Json.stringify
           (Json.stringify Sample.talk) Sample.talk
           (Sample.world (Some (Json.stringify Sample.talk))
                         [Sample.file "77b0"])).
  - exact JsonFacts.parse_stringify.
  - reflexivity.
  - vm_compute. reflexivity.
  - discriminate.
  - repeat constructor; simpl; intuition discriminate.
  - simpl. intros f [<-|[]] Hne He. reflexivity.
Defined.


Lemma history_files_are_kept_witness :
  lookup "77b0.json"
    (historyFiles
       (disk (snd (clearActiveMessage Json.parse Json.stringify
                     (Sample.world (Some (Json.stringify Sample.talk))
                                   [Sample.file "77b0"])))))
  = Some (Json.stringify (Sample.record "77b0")).
Proof.
  destruct (history_files_are_kept Json.parse Json.stringify IsoDate.getTime
              "77b0.json" (Json.stringify (Sample.record "77b0"))
              (Sample.world (Some (Json.stringify Sample.talk))
                            [Sample.file "77b0"]))
    as (_ & _ & H & _).
  - reflexivity.
  - intros cur H. vm_compute in H. injection H as <-. discriminate.
  - exact H.
Defined.

Lemma other_files_are_ignored_witness :
  fst (listHistory Json.parse IsoDate.getTime
         (Sample.world None [Sample.file "3f2a"; ("notes.txt", "hello");
                             Sample.file "77b0"]))
  = fst (listHistory Json.parse IsoDate.getTime
           (Sample.world None [Sample.file "3f2a"; Sample.file "77b0"])).
Proof.
  apply (other_files_are_ignored Json.parse Json.stringify IsoDate.getTime
           None [Sample.file "3f2a"] [Sample.file "77b0"] "notes.txt" "hello"
           "3f" Sample.stamp 0 []).
  reflexivity.
Defined.

Lemma createModel_fills_defaults_witness :
  createModel Talk.config
  = inl (ChatOpenAI "llama3.2" "not-needed" "http://localhost:11434/v1")
  /\ Config.provider Talk.config = "local".
Proof.
  split; [reflexivity|].
  destruct (createModel_fills_defaults Talk.config
              (ChatOpenAI "llama3.2" "not-needed" "http://localhost:11434/v1"))
    as [[H _]|(H & _)].
  - reflexivity.
  - discriminate.
  - exact H.
Defined.


Lemma chat_stores_the_exchange_witness :
  exists stored,
    activeFile
      (disk (snd (chat Json.parse Json.stringify Talk.no_content
                       Talk.prompt Talk.answers Talk.shell
                       "0b1c" "what is the capital of china"
                       (Sample.world None []))))
    = Some (Json.stringify stored)
    /\ MessageHistory.id stored = "0b1c"
    /\ map role (MessageHistory.messages stored) = [system; human; assistant].
Proof.
  destruct (chat_stores_the_exchange
              Json.parse Json.stringify Empty_set Talk.no_content
              Talk.prompt Talk.answers Talk.shell
              "0b1c" "what is the capital of china" "Beijing."
              (Sample.world None [])
              (snd (chat Json.parse Json.stringify Talk.no_content
                         Talk.prompt Talk.answers Talk.shell
                         "0b1c" "what is the capital of china"
                         (Sample.world None []))))
    as (stored & t0 & t1 & t2 & H1 & _ & H2 & H3).
  - exact JsonFacts.parse_stringify.
  - vm_compute. reflexivity.
  - exists stored. split; [exact H1|]. split; [exact H2|].
    rewrite H3. reflexivity.
Defined.


Lemma chat_without_answer_writes_nothing_witness :
  let w := Sample.world (Some (Json.stringify Sample.talk)) [] in
  activeFile
    (disk (snd (chat Json.parse Json.stringify Talk.no_content
                     Talk.prompt Talk.asks_for_ls Talk.shell
                     "0b1c" "what files are in the current directory" w)))
  = Some (Json.stringify Sample.talk).
Proof.
  intros w.
  destruct (chat_without_answer_writes_nothing
              Json.parse Json.stringify Empty_set Talk.no_content
              Talk.prompt Talk.asks_for_ls Talk.shell
              "0b1c" "what files are in the current directory" w
              (Returned max_iterations_reached)
              (snd (chat Json.parse Json.stringify Talk.no_content
                         Talk.prompt Talk.asks_for_ls Talk.shell
                         "0b1c" "what files are in the current directory" w)))
    as [_ H].
  - intros messages w0. split; reflexivity.
  - intros command w0. split; reflexivity.
  - vm_compute. reflexivity.
  - destruct H as [H _]; [discriminate|exact H].
Defined.

Lemma answered_chat_can_be_cleared_and_listed_witness :
  exists records,
    fst (listHistory Json.parse IsoDate.getTime
           (snd (clearActiveMessage Json.parse Json.stringify
                   (snd (chat Json.parse Json.stringify
                              Talk.no_content Talk.prompt Talk.answers
                              Talk.shell "0b1c" "what is the capital of china"
                              (Sample.world None []))))))
    = Returned records
    /\ exists r, In r records
                 /\ HistoryRecord.id r = "0b1c"
                 /\ HistoryRecord.preview r = "what is the capital of china"
                 /\ HistoryRecord.messageCount r = 3.
Proof.
  destruct (answered_chat_can_be_cleared_and_listed
              Json.parse Json.stringify IsoDate.getTime Empty_set
              Talk.no_content Talk.prompt Talk.answers Talk.shell
              "0b1c" "what is the capital of china" "Beijing."
              (Sample.world None [])
              (snd (chat Json.parse Json.stringify
                         Talk.no_content Talk.prompt Talk.answers
                         Talk.shell "0b1c" "what is the capital of china"
                         (Sample.world None []))))
    as (stored & w2 & records & w3 & _ & H2 & _ & H4 & H5 & H6).
  - exact JsonFacts.parse_stringify.
  - vm_compute. reflexivity.
  - rewrite H2. cbn [snd]. rewrite H4. exists records. split; [reflexivity|].
    exists (record_of stored). split; [exact H5|].
    destruct H6 as (Hi & Hc & Hp); [reflexivity|]. auto.
Defined.

(** The tool trims the output and marks an empty one; a failure without an
    exit status is reported with the code 1. *)
Example bashTool_samples :
  bash_output Talk.listing = "notes.txt"
  /\ bash_output (String (ascii_of_nat 10) " ") = "(no output)"
  /\ bash_error (ChildProcessError None (Some "") "Command failed: lss")
     = "Error (exit 1): Command failed: lss"
  /\ bash_error (ChildProcessError (Some 127) (Some "lss: not found") "Command failed: lss")
     = "Error (exit 127): lss: not found".
Proof. vm_compute. repeat split. Qed.

Lemma chat_consults_the_model_ten_times_at_most_witness :
  fst (chat Json.parse Json.stringify Talk.no_content Talk.prompt
            (Talk.answers_after maxIterations) Talk.shell
            "0b1c" "what files are in the current directory"
            (Sample.world None []))
  = Returned max_iterations_reached.
Proof.
  rewrite <- (chat_consults_the_model_ten_times_at_most
                Json.parse Json.stringify Empty_set Talk.no_content Talk.prompt
                Talk.asks_for_ls (Talk.answers_after maxIterations) Talk.shell).
  - vm_compute. reflexivity.
  - intros messages w' H. unfold Talk.answers_after.
    apply Nat.ltb_lt in H. now rewrite H.
Defined.

(** A model that answers with its tenth reply is heard. *)
Example chat_takes_the_tenth_reply :
  fst (chat Json.parse Json.stringify Talk.no_content Talk.prompt
            (Talk.answers_after 9) Talk.shell
            "0b1c" "what files are in the current directory"
            (Sample.world None []))
  = Returned (answered "Beijing.").
Proof. vm_compute. reflexivity. Qed.
